(** * Add_Geomark_URLs: a model of [add_geomark_py3.py]

    The script walks an update cursor over a feature dataset and, for every
    feature whose [GeomarkURL] attribute is blank, posts the geometry to the
    Geomark web service and stores the outcome in that attribute.

    The embedding follows [add_geomark_url] line by line.  The two external
    collaborators are modelled as follows.

    - [arcpy]: the dataset is an in-memory table (spatial reference code,
      field definitions, features).  A text attribute that is null is an
      absent key of the feature's attribute map, so that reading it gives
      Python's [None].  Calls into [arcpy] succeed on such a table; the
      declared length of a text field is recorded but not enforced.
    - [requests]: the remote service is an arbitrary function [service] from
      the position of a call in the session and the request to either a
      response or a raised exception (connection error, timeout, ...).

    Every [arcpy.AddMessage], [AddField], [session.post] and
    [cursor.updateRow] call is recorded in an event log.  Messages are logged
    without the [time.strftime] prefix. *)

From stdpp Require Import gmap strings list pretty.

Open Scope Z_scope.

(** ** Data *)

(** A geometry object; only its [WKT] property is read. *)
Record Geometry := { WKT : string }.

(** A feature: named text attributes (null = absent key) and the shape. *)
Record Feature := {
  attrs : gmap string string;
  SHAPE : option Geometry
}.

(** A field definition as passed to [AddField]. *)
Record Field := {
  field_name : string;
  field_type : string;
  field_length : Z
}.

Record Dataset := {
  factoryCode : Z;
  fields : list Field;
  features : list Feature
}.

(** Values that appear in the request payload. *)
Inductive pyval :=
| PyNone
| PyInt (n : Z)
| PyStr (s : string).

(** The [data] dictionary, in insertion order. *)
Definition Payload : Type := list (string * pyval).

(** The part of [requests.Response] that is inspected. *)
Record Response := {
  status_code : Z;
  url : string
}.

(** What a [session.post] call does: return a response or raise. *)
Inductive PostResult :=
| Returns (resp : Response)
| Raises.

(** The row handed out by [UpdateCursor(in_fc, ["GeomarkURL", "SHAPE@"])]. *)
Definition Row : Type := option string * option Geometry.

Inductive event :=
| AddMessage (message : string)
| AddField (name type : string) (len : Z)
| Post (rec : nat) (endpoint : string) (data : Payload) (res : PostResult)
| UpdateRow (rec : nat) (row : Row).

(** The only exception the function body itself can raise: reading a local
    variable that was never assigned. *)
Inductive exn :=
| UnboundLocalError (variable : string).

Inductive Outcome :=
| Normal
| Raised (e : exn).

(** Local variables that live across loop iterations.  [r] is [None] while
    the name is unbound; [session] counts the calls made on the session. *)
Record Locals := {
  read_count : Z;
  update_count : Z;
  r : option Response;
  session : nat
}.

(** Result of running a piece of code: how it ended, the value it leaves,
    the locals and the events it emitted. *)
Record Result (A : Type) := mkResult {
  outcome : Outcome;
  value : A;
  locals : Locals;
  events : list event
}.
Arguments mkResult {A} _ _ _ _.
Arguments outcome {A} _.
Arguments value {A} _.
Arguments locals {A} _.
Arguments events {A} _.

(** ** Constants of the script *)

Definition dest_field : string := "GeomarkURL".
Definition post_url : string := "https://apps.gov.bc.ca/pub/geomark/geomarks/new".

Definition msg_null_geometry : string := "Null geometry".
Definition msg_request_failed : string :=
  "Geomark Web Service request failed - try running the tool again".
Definition msg_not_created : string :=
  "Could not create Geomark URL for this geometry".
Definition msg_status (status : Z) : string :=
  "Geomark Web Service returned status code " +:+ pretty status
  +:+ "; try running the tool again".

Definition payload (geom_wkt : string) (srid : Z) : Payload :=
  [ ("bufferSegments", PyInt 8); ("body", PyStr geom_wkt);
    ("bufferMetres", PyNone); ("callback", PyNone);
    ("failureRedirectUrl", PyNone); ("bufferJoin", PyStr "ROUND");
    ("bufferMitreLimit", PyInt 5); ("bufferCap", PyStr "ROUND");
    ("redirectUrl", PyNone); ("resultFormat", PyNone);
    ("format", PyStr "wkt"); ("srid", PyInt srid);
    ("allowOverlap", PyStr "false") ].

(** ** The cursor *)

Definition set_attr (k : string) (v : option string) (m : gmap string string)
  : gmap string string :=
  match v with
  | Some s => <[k := s]> m
  | None => delete k m
  end.

Definition read_row (f : Feature) : Row := (attrs f !! dest_field, SHAPE f).

(** [cursor.updateRow(row)]: both cursor fields are written back. *)
Definition updateRow (f : Feature) (row : Row) : Feature :=
  {| attrs := set_attr dest_field row.1 (attrs f); SHAPE := row.2 |}.

(** ** The loop body *)

(** [exist_url is None or exist_url in ["", " "]] *)
Definition is_blank (exist_url : option string) : bool :=
  match exist_url with
  | None => true
  | Some s => bool_decide (s ∈ [""; " "])
  end.

(** The [if r.status_code == 200: ... else: ...] statement: the value
    assigned to [row[0]] and the new [update_count]. *)
Definition inspect_response (resp : Response) (count : Z) : string * Z :=
  if status_code resp =? 200 then
    let out_url := url resp in
    if bool_decide (out_url = "https://apps.gov.bc.ca/pub/geomark/geomarks/new")
    then (msg_not_created, count)
    else (out_url, count + 1)
  else (msg_status (status_code resp), count).

Definition with_counts (st : Locals) (rc uc : Z) : Locals :=
  {| read_count := rc; update_count := uc; r := r st; session := session st |}.

Definition after_post (st : Locals) (res : PostResult) : Locals :=
  {| read_count := read_count st; update_count := update_count st;
     r := match res with Returns resp => Some resp | Raises => r st end;
     session := S (session st) |}.

Definition progress_message (rc total uc : Z) : string :=
  "Processed " +:+ pretty rc +:+ " of " +:+ pretty total
  +:+ " feature(s) and added Geomark URL to " +:+ pretty uc +:+ " feature(s)".

(** [read_count = 0], [update_count = 0], a fresh session, [r] not yet
    assigned. *)
Definition init_locals : Locals :=
  {| read_count := 0; update_count := 0; r := None; session := 0 |}.

Section Populator.

(** The remote service, as seen through [session.post(url, data, timeout=5)]:
    the answer to the [n]-th call of the session. *)
Variable service : nat → string → Payload → PostResult.

(** The statements under [if exist_url is None or ...], ending with
    [cursor.updateRow(row)].  [rec] is the position of the cursor. *)
Definition fill_row (srid : Z) (rec : nat) (f : Feature) (row : Row)
    (st : Locals) : Result Feature :=
  let geom := row.2 in
  match geom with
  | None =>
      let row := (Some msg_null_geometry, row.2) in
      mkResult Normal (updateRow f row) st [UpdateRow rec row]
  | Some g =>
      let geom_wkt := WKT g in
      let data := payload geom_wkt srid in
      let res := service (session st) post_url data in
      let st := after_post st res in
      (* try: r = session.post(...)  except: row[0] = "... request failed ..." *)
      let row := match res with
                 | Returns _ => row
                 | Raises => (Some msg_request_failed, row.2)
                 end in
      (* if r.status_code == 200: ... *)
      match r st with
      | None =>
          mkResult (Raised (UnboundLocalError "r")) f st
                   [Post rec post_url data res]
      | Some resp =>
          let '(v, uc) := inspect_response resp (update_count st) in
          let row := (Some v, row.2) in
          mkResult Normal (updateRow f row)
                   (with_counts st (read_count st) uc)
                   [Post rec post_url data res; UpdateRow rec row]
      end
  end.

(** Lines 60-86 of one iteration of [for row in cursor]. *)
Definition visit_row (srid : Z) (rec : nat) (f : Feature) (st : Locals)
    : Result Feature :=
  let st := with_counts st (read_count st + 1) (update_count st) in
  let row := read_row f in
  let exist_url := row.1 in
  if is_blank exist_url then fill_row srid rec f row st
  else mkResult Normal f st [].

(** One iteration: the visit, then the progress message of lines 88-90. *)
Definition loop_body (srid row_total : Z) (rec : nat) (f : Feature)
    (st : Locals) : Result Feature :=
  let res := visit_row srid rec f st in
  match outcome res with
  | Raised _ => res
  | Normal =>
      let st := locals res in
      if (read_count st mod 10 =? 0) || (read_count st =? row_total) then
        mkResult Normal (value res) st
          (events res ++
           [AddMessage (progress_message (read_count st) row_total
                                         (update_count st))])
      else res
  end.

(** The cursor visits the features in order; an exception leaves the
    remaining features unvisited. *)
Fixpoint for_rows (srid row_total : Z) (rec : nat) (fs : list Feature)
    (st : Locals) : Result (list Feature) :=
  match fs with
  | [] => mkResult Normal [] st []
  | f :: rest =>
      let s := loop_body srid row_total rec f st in
      match outcome s with
      | Raised e => mkResult (Raised e) (value s :: rest) (locals s) (events s)
      | Normal =>
          let l := for_rows srid row_total (S rec) rest (locals s) in
          mkResult (outcome l) (value s :: value l) (locals l)
                   (events s ++ events l)
      end
  end.

(** ** Field provisioning *)

(** Lines 45-50: add the [GeomarkURL] field unless a field of that name is
    listed. *)
Definition provision (flds : list Field) : list Field * list event :=
  let flist := field_name <$> flds in
  if bool_decide ("GeomarkURL" ∈ flist) then
    (flds, [AddMessage "GeomarkURL field already exists in input layer"])
  else
    (flds ++ [{| field_name := "GeomarkURL"; field_type := "TEXT";
                 field_length := 100 |}],
     [AddField "GeomarkURL" "TEXT" 100;
      AddMessage "Added GeomarkURL field to input layer"]).

(** ** The function *)

Definition add_geomark_url (in_fc : Dataset) : Result Dataset :=
  let srid := factoryCode in_fc in
  let ev_srid :=
    [AddMessage ("Spatial reference code of input dataset: " +:+ pretty srid)] in
  let '(flds, ev_field) := provision (fields in_fc) in
  let row_total := Z.of_nat (length (features in_fc)) in
  let ev_total :=
    [AddMessage ("Processing " +:+ pretty row_total
                 +:+ " feature(s) of input dataset")] in
  let l := for_rows srid row_total 0%nat (features in_fc) init_locals in
  mkResult (outcome l)
           {| factoryCode := srid; fields := flds; features := value l |}
           (locals l)
           (ev_srid ++ ev_field ++ ev_total ++ events l).

End Populator.

(** ** Vocabulary of the statements *)

(** The destination attribute of a feature. *)
Definition dest (f : Feature) : option string := attrs f !! dest_field.

(** The record an event belongs to, for the events issued per record. *)
Definition record_of (e : event) : option nat :=
  match e with
  | Post i _ _ _ | UpdateRow i _ => Some i
  | AddMessage _ | AddField _ _ _ => None
  end.

(** The cursor arrived at record [i] during the run. *)
Definition reached (run : Result Dataset) (i : nat) : Prop :=
  Z.of_nat i < read_count (locals run).

(** Something was done for record [i]: a request or a write. *)
Definition attempted (run : Result Dataset) (i : nat) : Prop :=
  ∃ e, e ∈ events run ∧ record_of e = Some i.

(** The loop after the cursor has gone through the first [k] records. *)
Definition cursor_after (service : nat → string → Payload → PostResult)
    (ds : Dataset) (k : nat) : Result (list Feature) :=
  for_rows service (factoryCode ds) (Z.of_nat (length (features ds))) 0%nat
           (take k (features ds)) init_locals.

Definition geomark_field : Field :=
  {| field_name := "GeomarkURL"; field_type := "TEXT"; field_length := 100 |}.

Definition is_AddField (e : event) : bool :=
  match e with
  | AddField _ _ _ => true
  | _ => false
  end.

(** The [AddField] calls of a log, in order. *)
Definition add_field_calls (evs : list event) : list event :=
  List.filter is_AddField evs.

(** A response whose resolved URL is not a blank value. *)
Definition url_not_blank (resp : Response) : Prop :=
  is_blank (Some (url resp)) = false.

(** The requests and writes of a log, in order. *)
Definition record_events (evs : list event) : list event :=
  List.filter (λ e, bool_decide (is_Some (record_of e))) evs.

(** The reading of "blank" as null, empty or made of whitespace only
    (Python's [str.isspace] on ASCII), to compare [is_blank] with. *)
Definition is_space (c : Ascii.ascii) : bool :=
  let n := Ascii.nat_of_ascii c in
  ((9 <=? n) && (n <=? 13) || (28 <=? n) && (n <=? 32))%nat.

Definition whitespace_only (s : string) : bool :=
  forallb is_space (String.list_ascii_of_string s).

Definition null_empty_or_whitespace (v : option string) : bool :=
  match v with
  | None => true
  | Some s => whitespace_only s
  end.

(** ** Sample data *)

Definition lot_a : Geometry := {| WKT := "POINT (1200000 480000)" |}.
Definition lot_b : Geometry := {| WKT := "POINT (1200500 480250)" |}.

(** Destination null, with a geometry. *)
Definition blank_a : Feature :=
  {| attrs := {["NAME" := "lot a"]}; SHAPE := Some lot_a |}.

(** Destination a single space, with a geometry. *)
Definition blank_b : Feature :=
  {| attrs := <["GeomarkURL" := " "]> {["NAME" := "lot b"]};
     SHAPE := Some lot_b |}.

(** Destination null, no geometry. *)
Definition no_shape : Feature :=
  {| attrs := {["NAME" := "lot c"]}; SHAPE := None |}.

(** Destination already filled in. *)
Definition filled : Feature :=
  {| attrs := <["GeomarkURL" :=
                 "https://apps.gov.bc.ca/pub/geomark/geomarks/gm-0A1B"]>
                {["NAME" := "lot d"]};
     SHAPE := Some lot_a |}.

(** Destination made of two spaces. *)
Definition two_spaces : Feature :=
  {| attrs := {["GeomarkURL" := "  "]}; SHAPE := Some lot_a |}.

Definition layer (fs : list Feature) : Dataset :=
  {| factoryCode := 3005;
     fields := [{| field_name := "NAME"; field_type := "TEXT";
                   field_length := 50 |}];
     features := fs |}.

Definition created_a : Response :=
  {| status_code := 200;
     url := "https://apps.gov.bc.ca/pub/geomark/geomarks/gm-A7" |}.
Definition rejected : Response :=
  {| status_code := 200;
     url := "https://apps.gov.bc.ca/pub/geomark/geomarks/new" |}.
Definition server_error : Response :=
  {| status_code := 500;
     url := "https://apps.gov.bc.ca/pub/geomark/geomarks/new" |}.

(** A service that answers the calls of a session from a script, and raises
    once the script is used up. *)
Definition scripted (script : list PostResult)
    : nat → string → Payload → PostResult :=
  λ n _ _, default Raises (script !! n).

(** ** Vocabulary for the log of one record and of the session *)

(** The events of record [i] in a log, in order. *)
Definition events_of (i : nat) (evs : list event) : list event :=
  List.filter (λ e, bool_decide (record_of e = Some i)) evs.

(** How the calls of the session ended, in order. *)
Definition post_results (evs : list event) : list PostResult :=
  omap (λ e, match e with Post _ _ _ res => Some res | _ => None end) evs.

(** The locals once the record has been read. *)
Definition bump (st : Locals) : Locals :=
  with_counts st (read_count st + 1) (update_count st).

(** The progress message of lines 88-90 after a visit, if any. *)
Definition progress_events (row_total : Z) (v : Result Feature) : list event :=
  match outcome v with
  | Raised _ => []
  | Normal =>
      if (read_count (locals v) mod 10 =? 0)
         || (read_count (locals v) =? row_total)
      then [AddMessage (progress_message (read_count (locals v)) row_total
                                         (update_count (locals v)))]
      else []
  end.

(** The five ways through lines 60-86. *)
Inductive visit_spec (service : nat → string → Payload → PostResult)
    (srid : Z) (i : nat) (f : Feature) (st : Locals)
    : Result Feature → Prop :=
| visit_skipped :
    is_blank (dest f) = false →
    visit_spec service srid i f st (mkResult Normal f (bump st) [])
| visit_marked :
    is_blank (dest f) = true → SHAPE f = None →
    visit_spec service srid i f st
      (mkResult Normal (updateRow f (Some msg_null_geometry, None)) (bump st)
                [UpdateRow i (Some msg_null_geometry, None)])
| visit_answered g resp :
    is_blank (dest f) = true → SHAPE f = Some g →
    service (session st) post_url (payload (WKT g) srid) = Returns resp →
    let vc := inspect_response resp (update_count st) in
    visit_spec service srid i f st
      (mkResult Normal (updateRow f (Some vc.1, Some g))
                {| read_count := read_count st + 1; update_count := vc.2;
                   r := Some resp; session := S (session st) |}
                [Post i post_url (payload (WKT g) srid) (Returns resp);
                 UpdateRow i (Some vc.1, Some g)])
| visit_stale g resp :
    is_blank (dest f) = true → SHAPE f = Some g →
    service (session st) post_url (payload (WKT g) srid) = Raises →
    r st = Some resp →
    let vc := inspect_response resp (update_count st) in
    visit_spec service srid i f st
      (mkResult Normal (updateRow f (Some vc.1, Some g))
                {| read_count := read_count st + 1; update_count := vc.2;
                   r := Some resp; session := S (session st) |}
                [Post i post_url (payload (WKT g) srid) Raises;
                 UpdateRow i (Some vc.1, Some g)])
| visit_unbound g :
    is_blank (dest f) = true → SHAPE f = Some g →
    service (session st) post_url (payload (WKT g) srid) = Raises →
    r st = None →
    visit_spec service srid i f st
      (mkResult (Raised (UnboundLocalError "r")) f
                {| read_count := read_count st + 1;
                   update_count := update_count st;
                   r := None; session := S (session st) |}
                [Post i post_url (payload (WKT g) srid) Raises]).

(** ** Proof steps over concrete logs *)

(** Replace the log in a membership hypothesis by its value. *)
Ltac eval_log_in H :=
  match type of H with
  | ?e ∈ ?l => let l' := eval vm_compute in l in change (e ∈ l') in H
  end.

(** Go through the entries of an evaluated log. *)
Ltac log_cases H :=
  repeat match type of H with
         | _ ∈ _ :: _ => apply elem_of_cons in H as [H | H]
         | _ ∈ [] => by apply elem_of_nil in H
         end.

(** Find an entry in a log. *)
Ltac log_entry :=
  match goal with
  | |- ?e ∈ ?l => let l' := eval vm_compute in l in change (e ∈ l')
  end;
  repeat first [ apply list_elem_of_here | apply list_elem_of_further ].

(** ** The destination attribute under [updateRow] *)

Lemma dest_updateRow f v g : dest (updateRow f (Some v, g)) = Some v.
Proof. unfold dest, updateRow; simpl. apply lookup_insert_eq. Qed.

Lemma attrs_updateRow_other f row k :
  k ≠ dest_field → attrs (updateRow f row) !! k = attrs f !! k.
Proof.
  intros Hk. destruct row as [[v|] g]; simpl.
  - by rewrite lookup_insert_ne.
  - by rewrite lookup_delete_ne.
Qed.

Lemma is_blank_String a s : a ≠ Ascii.Space → is_blank (Some (String a s)) = false.
Proof.
  intros Ha. simpl. apply bool_decide_eq_false.
  rewrite !elem_of_cons, elem_of_nil. intros [H | [H | []]]; [done |].
  inversion H; done.
Qed.

Lemma is_blank_msg_status n : is_blank (Some (msg_status n)) = false.
Proof. by apply is_blank_String. Qed.

(** ** One visit *)

Section Visit.

Variable service : nat → string → Payload → PostResult.
Variables (srid row_total : Z).

Lemma visit_skip i f st :
  is_blank (dest f) = false →
  visit_row service srid i f st
  = mkResult Normal f (with_counts st (read_count st + 1) (update_count st)) [].
Proof. intros Hb. unfold visit_row, read_row; simpl. fold (dest f). by rewrite Hb. Qed.

Lemma visit_null_geometry i f st :
  is_blank (dest f) = true → SHAPE f = None →
  visit_row service srid i f st
  = mkResult Normal (updateRow f (Some msg_null_geometry, None))
             (with_counts st (read_count st + 1) (update_count st))
             [UpdateRow i (Some msg_null_geometry, None)].
Proof.
  intros Hb Hg. unfold visit_row, read_row; simpl. fold (dest f).
  rewrite Hb. unfold fill_row; simpl. by rewrite Hg.
Qed.

(** With a geometry, the request goes out; what follows depends on whether
    [r] is bound once the [try] statement is over. *)
Lemma visit_post i f g st :
  is_blank (dest f) = true → SHAPE f = Some g →
  let data := payload (WKT g) srid in
  let res := service (session st) post_url data in
  let st1 := after_post (with_counts st (read_count st + 1) (update_count st)) res in
  visit_row service srid i f st
  = match r st1 with
    | None => mkResult (Raised (UnboundLocalError "r")) f st1
                       [Post i post_url data res]
    | Some resp =>
        let vc := inspect_response resp (update_count st) in
        mkResult Normal (updateRow f (Some vc.1, Some g))
                 (with_counts st1 (read_count st + 1) vc.2)
                 [Post i post_url data res; UpdateRow i (Some vc.1, Some g)]
    end.
Proof.
  intros Hb Hg. unfold visit_row, read_row; simpl. fold (dest f).
  rewrite Hb. unfold fill_row; simpl. rewrite Hg; simpl.
  destruct (service (session st) post_url (payload (WKT g) srid)) as [resp|];
    simpl.
  - by destruct (inspect_response resp (update_count st)).
  - destruct (r st) as [resp|]; [|done].
    by destruct (inspect_response resp (update_count st)).
Qed.

Lemma loop_body_outcome i f st :
  outcome (loop_body service srid row_total i f st)
  = outcome (visit_row service srid i f st).
Proof. unfold loop_body. repeat case_match; simpl; congruence. Qed.

Lemma loop_body_value i f st :
  value (loop_body service srid row_total i f st)
  = value (visit_row service srid i f st).
Proof. unfold loop_body. by repeat case_match. Qed.

Lemma loop_body_locals i f st :
  locals (loop_body service srid row_total i f st)
  = locals (visit_row service srid i f st).
Proof. unfold loop_body. by repeat case_match. Qed.

Lemma loop_body_events i f st e :
  record_of e ≠ None →
  e ∈ events (loop_body service srid row_total i f st)
  ↔ e ∈ events (visit_row service srid i f st).
Proof.
  intros He. unfold loop_body. repeat case_match; simpl; try done.
  rewrite elem_of_app, list_elem_of_singleton.
  split; [intros [?| ->]; [done | by destruct He] | by left].
Qed.

Lemma visit_read_count i f st :
  read_count (locals (visit_row service srid i f st)) = read_count st + 1.
Proof.
  destruct (is_blank (dest f)) eqn:Hb.
  - destruct (SHAPE f) as [g|] eqn:Hg.
    + rewrite (visit_post _ _ g) by done. simpl. by case_match.
    + by rewrite visit_null_geometry.
  - by rewrite visit_skip.
Qed.

Lemma visit_record_of i f st e j :
  e ∈ events (visit_row service srid i f st) → record_of e = Some j → j = i.
Proof.
  destruct (is_blank (dest f)) eqn:Hb.
  - destruct (SHAPE f) as [g|] eqn:Hg.
    + rewrite (visit_post _ _ g) by done. cbv zeta.
      destruct (r (after_post _ _)); simpl;
        rewrite ?elem_of_cons, elem_of_nil; intros Hin He;
        destruct_or!; subst; simpl in He; congruence.
    + rewrite visit_null_geometry by done. simpl.
      rewrite list_elem_of_singleton. intros -> He. simpl in He. congruence.
  - rewrite visit_skip by done. simpl. by rewrite elem_of_nil.
Qed.

End Visit.

(** ** The loop *)

Section Loop.

Variable service : nat → string → Payload → PostResult.
Variables (srid row_total : Z).

Local Abbreviation body := (loop_body service srid row_total).
Local Abbreviation loop := (for_rows service srid row_total).

Lemma body_read_count i f st :
  read_count (locals (body i f st)) = read_count st + 1.
Proof. rewrite loop_body_locals. apply visit_read_count. Qed.

Lemma body_record_of i f st e j :
  e ∈ events (body i f st) → record_of e = Some j → j = i.
Proof.
  intros Hin He. apply loop_body_events in Hin; [|congruence].
  eapply visit_record_of; eauto.
Qed.

Lemma for_rows_length fs : ∀ i st, length (value (loop i fs st)) = length fs.
Proof.
  induction fs as [|f fs IH]; intros i st; simpl; [done|].
  destruct (outcome (body i f st)); simpl; [|done].
  by rewrite IH.
Qed.

Lemma for_rows_read_count fs : ∀ i st,
  let l := loop i fs st in
  read_count st ≤ read_count (locals l) ≤ read_count st + Z.of_nat (length fs)
  ∧ (outcome l = Normal →
     read_count (locals l) = read_count st + Z.of_nat (length fs)).
Proof.
  induction fs as [|f fs IH]; intros i st; simpl.
  - split; [lia | intros _; lia].
  - pose proof (body_read_count i f st) as Hrc.
    destruct (outcome (body i f st)) eqn:Ho; simpl.
    + destruct (IH (S i) (locals (body i f st))) as [Hle Heq].
      split; [lia|]. intros HN. specialize (Heq HN). lia.
    + split; [lia | done].
Qed.

Lemma for_rows_record_range fs : ∀ i st e j,
  e ∈ events (loop i fs st) → record_of e = Some j →
  (i ≤ j < i + length fs)%nat.
Proof.
  induction fs as [|f fs IH]; intros i st e j; simpl.
  - by rewrite elem_of_nil.
  - destruct (outcome (body i f st)); simpl.
    + rewrite elem_of_app. intros [Hin | Hin] He.
      * apply (body_record_of _ _ _ _ _ Hin) in He. lia.
      * specialize (IH _ _ _ _ Hin He). lia.
    + intros Hin He. apply (body_record_of _ _ _ _ _ Hin) in He. lia.
Qed.

(** Running the loop over [xs ++ ys] is running it over [xs] and, unless an
    exception came up, going on over [ys]. *)
Lemma for_rows_app xs ys : ∀ i st,
  loop i (xs ++ ys) st
  = let p := loop i xs st in
    match outcome p with
    | Raised e => mkResult (Raised e) (value p ++ ys) (locals p) (events p)
    | Normal =>
        let q := loop (i + length xs) ys (locals p) in
        mkResult (outcome q) (value p ++ value q) (locals q)
                 (events p ++ events q)
    end.
Proof.
  induction xs as [|x xs IH]; intros i st; simpl.
  - rewrite Nat.add_0_r. by destruct (loop i ys st).
  - destruct (outcome (body i x st)) eqn:Ho; simpl; [|done].
    rewrite IH. cbv zeta.
    replace (i + S (length xs))%nat with (S i + length xs)%nat by lia.
    destruct (outcome (loop (S i) xs _)); simpl; [|done].
    by rewrite app_assoc.
Qed.

(** What the whole loop did for the record at position [k], in terms of the
    iteration entered with the locals left by the first [k] records. *)
Lemma for_rows_lookup fs i st k f :
  fs !! k = Some f →
  let pre := loop i (take k fs) st in
  let l := loop i fs st in
  match outcome pre with
  | Normal =>
      let s := body (i + k) f (locals pre) in
      value l !! k = Some (value s)
      ∧ (∀ e, record_of e = Some (i + k)%nat → e ∈ events l ↔ e ∈ events s)
      ∧ read_count (locals pre) = read_count st + Z.of_nat k
      ∧ read_count st + Z.of_nat k < read_count (locals l)
  | Raised _ =>
      value l !! k = Some f
      ∧ (∀ e, record_of e = Some (i + k)%nat → e ∉ events l)
      ∧ read_count (locals l) ≤ read_count st + Z.of_nat k
  end.
Proof.
  intros Hk. pose proof (lookup_lt_Some _ _ _ Hk) as Hlt.
  assert (Hlen : length (take k fs) = k) by (rewrite length_take; lia).
  assert (Hsplit : loop i fs st = loop i (take k fs ++ f :: drop (S k) fs) st)
    by (by rewrite take_drop_middle).
  cbv zeta. rewrite Hsplit. clear Hsplit.
  rewrite for_rows_app. cbv zeta. rewrite Hlen.
  pose proof (for_rows_length (take k fs) i st) as Hvl. rewrite Hlen in Hvl.
  pose proof (for_rows_read_count (take k fs) i st) as [Hrc HrcN].
  rewrite Hlen in Hrc, HrcN.
  pose proof (for_rows_record_range (take k fs) i st) as Hrange.
  rewrite Hlen in Hrange.
  destruct (outcome (loop i (take k fs) st)) as [|ex] eqn:Ho; simpl.
  - specialize (HrcN eq_refl).
    pose proof (body_read_count (i + k) f (locals (loop i (take k fs) st))) as Hb.
    assert (Hpre : ∀ e, record_of e = Some (i + k)%nat →
                        e ∉ events (loop i (take k fs) st)).
    { intros e He Hin. specialize (Hrange _ _ Hin He). lia. }
    destruct (outcome (body (i + k) f _)) as [|ex] eqn:Hob; simpl.
    + pose proof (for_rows_read_count (drop (S k) fs) (S (i + k))
                    (locals (body (i + k) f (locals (loop i (take k fs) st)))))
        as [Hrc2 _].
      split_and!; [| | done | lia].
      * rewrite lookup_app_r by lia. by rewrite Hvl, Nat.sub_diag.
      * intros e He. rewrite !elem_of_app. split; [|tauto].
        intros [Hin | [Hin | Hin]]; [by apply Hpre in Hin | done |].
        apply (for_rows_record_range _ _ _ _ _ Hin) in He. lia.
    + split_and!; [| | done | lia].
      * rewrite lookup_app_r by lia. by rewrite Hvl, Nat.sub_diag.
      * intros e He. rewrite elem_of_app. split; [|tauto].
        intros [Hin | Hin]; [by apply Hpre in Hin | done].
  - split_and!; [| | lia].
    + rewrite lookup_app_r by lia. by rewrite Hvl, Nat.sub_diag.
    + intros e He Hin. specialize (Hrange _ _ Hin He). lia.
Qed.

End Loop.

(** ** The whole run *)

Section Run.

Variable service : nat → string → Payload → PostResult.

Local Abbreviation the_loop ds :=
  (for_rows service (factoryCode ds) (Z.of_nat (length (features ds))) 0%nat
            (features ds) init_locals).

Lemma run_outcome ds :
  outcome (add_geomark_url service ds) = outcome (the_loop ds).
Proof. unfold add_geomark_url. by destruct (provision _). Qed.

Lemma run_features ds :
  features (value (add_geomark_url service ds)) = value (the_loop ds).
Proof. unfold add_geomark_url. by destruct (provision _). Qed.

Lemma run_locals ds :
  locals (add_geomark_url service ds) = locals (the_loop ds).
Proof. unfold add_geomark_url. by destruct (provision _). Qed.

Lemma run_fields ds :
  fields (value (add_geomark_url service ds)) = (provision (fields ds)).1.
Proof. unfold add_geomark_url. by destruct (provision _). Qed.

Lemma run_factoryCode ds :
  factoryCode (value (add_geomark_url service ds)) = factoryCode ds.
Proof. unfold add_geomark_url. by destruct (provision _). Qed.

Lemma provision_record_of flds e :
  e ∈ (provision flds).2 → record_of e = None.
Proof.
  unfold provision. case_bool_decide; simpl;
    rewrite ?elem_of_cons, elem_of_nil; intros; destruct_or!; by subst.
Qed.

Lemma run_events ds e :
  record_of e ≠ None →
  e ∈ events (add_geomark_url service ds) ↔ e ∈ events (the_loop ds).
Proof.
  intros He. unfold add_geomark_url.
  pose proof (provision_record_of (fields ds) e) as Hp.
  destruct (provision _) as [flds evs]; simpl in *.
  rewrite elem_of_cons, elem_of_app, elem_of_cons.
  split; [|tauto].
  intros [-> | [Hin | [-> | Hin]]]; try done; by destruct He; auto.
Qed.

(** A run that returns normally has visited every record. *)
Lemma completed_reaches_all ds i :
  outcome (add_geomark_url service ds) = Normal →
  (i < length (features ds))%nat →
  reached (add_geomark_url service ds) i.
Proof.
  rewrite run_outcome. unfold reached. rewrite run_locals. intros HN Hi.
  destruct (for_rows_read_count service (factoryCode ds)
              (Z.of_nat (length (features ds))) (features ds) 0 init_locals)
    as [_ Heq].
  rewrite (Heq HN). simpl. lia.
Qed.

(** The run at one record: either the cursor never arrived there, or the
    record went through one iteration entered with the locals left by the
    records before it. *)
Lemma run_lookup ds i f :
  features ds !! i = Some f →
  let run := add_geomark_url service ds in
  let pre := cursor_after service ds i in
  match outcome pre with
  | Normal =>
      let s := loop_body service (factoryCode ds)
                 (Z.of_nat (length (features ds))) i f (locals pre) in
      features (value run) !! i = Some (value s)
      ∧ (∀ e, record_of e = Some i → e ∈ events run ↔ e ∈ events s)
      ∧ read_count (locals pre) = Z.of_nat i
      ∧ reached run i
  | Raised _ =>
      features (value run) !! i = Some f
      ∧ (∀ e, record_of e = Some i → e ∉ events run)
      ∧ ¬ reached run i
  end.
Proof.
  intros Hi. cbv zeta. unfold reached, cursor_after.
  rewrite run_features, run_locals.
  pose proof (for_rows_lookup service (factoryCode ds)
                (Z.of_nat (length (features ds))) (features ds) 0 init_locals
                i f Hi) as H.
  cbv zeta in H. simpl in H.
  destruct (outcome (for_rows _ _ _ _ (take i (features ds)) _)) as [|ex].
  - destruct H as (Hv & Hev & Hrc & Hlt). split_and!; [done | | done | done].
    intros e He. rewrite run_events by congruence. by apply Hev.
  - destruct H as (Hv & Hev & Hle). split_and!; [done | | lia].
    intros e He. rewrite run_events by congruence. by apply Hev.
Qed.

(** The events of record [i] when the destination is not blank: none. *)
Lemma body_skip_events srid total i f st e :
  is_blank (dest f) = false → record_of e = Some i →
  e ∉ events (loop_body service srid total i f st).
Proof.
  intros Hb He. rewrite loop_body_events by congruence.
  rewrite visit_skip by done. simpl. apply not_elem_of_nil.
Qed.

(** C4.  A record whose destination is not blank (not null, not the empty
    string, not a single space) is the same record after the run, whether
    the run returned or raised, and the log holds no [updateRow] call and no
    request for it. *)
Theorem nonblank_record_untouched ds i f :
  features ds !! i = Some f →
  is_blank (dest f) = false →
  let run := add_geomark_url service ds in
  features (value run) !! i = Some f
  ∧ (∀ row, UpdateRow i row ∉ events run)
  ∧ (∀ u d res, Post i u d res ∉ events run).
Proof.
  intros Hi Hb. cbv zeta. pose proof (run_lookup ds i f Hi) as H.
  cbv zeta in H.
  assert (Hnone : ∀ e, record_of e = Some i →
                       e ∉ events (add_geomark_url service ds)).
  { intros e He. destruct (outcome (cursor_after service ds i)) as [|ex].
    - destruct H as (_ & Hev & _). rewrite (Hev e He).
      by apply body_skip_events.
    - destruct H as (_ & Hev & _). by apply Hev. }
  split_and!.
  - destruct (outcome (cursor_after service ds i)) as [|ex].
    + destruct H as (Hv & _). rewrite Hv, loop_body_value.
      by rewrite visit_skip.
    + by destruct H as (Hv & _).
  - intros row. by apply Hnone.
  - intros u d res. by apply Hnone.
Qed.

Lemma is_blank_true v :
  is_blank v = true ↔ v = None ∨ v = Some "" ∨ v = Some " ".
Proof.
  destruct v as [s|]; simpl.
  - rewrite bool_decide_eq_true, !elem_of_cons, elem_of_nil.
    split; [intros [-> | [-> | []]]; auto|].
    intros [? | [? | ?]]; simplify_eq; auto.
  - split; auto.
Qed.

(** With a blank destination something is always done for the record. *)
Lemma body_blank_attempt srid total i f st :
  is_blank (dest f) = true →
  ∃ e, e ∈ events (loop_body service srid total i f st) ∧ record_of e = Some i.
Proof.
  intros Hb. destruct (SHAPE f) as [g|] eqn:Hg.
  - exists (Post i post_url (payload (WKT g) srid)
                 (service (session st) post_url (payload (WKT g) srid))).
    split; [|done]. rewrite loop_body_events by done.
    rewrite (visit_post _ _ _ _ g) by done. cbv zeta.
    destruct (r (after_post _ _)); simpl; apply elem_of_cons; by left.
  - exists (UpdateRow i (Some msg_null_geometry, None)).
    split; [|done]. rewrite loop_body_events by done.
    rewrite visit_null_geometry by done. simpl. apply elem_of_cons; by left.
Qed.

(** Nothing is done for a record whose destination is not blank. *)
Lemma attempted_is_blank ds i f :
  features ds !! i = Some f →
  attempted (add_geomark_url service ds) i →
  is_blank (dest f) = true.
Proof.
  intros Hi (e & Hin & He).
  pose proof (run_lookup ds i f Hi) as H. cbv zeta in H.
  destruct (outcome (cursor_after service ds i)) as [|ex].
  - destruct H as (_ & Hev & _). rewrite (Hev e He) in Hin.
    destruct (is_blank (dest f)) eqn:Hb; [done|].
    by apply body_skip_events in Hin.
  - destruct H as (_ & Hev & _). by apply Hev in Hin.
Qed.

(** C3 (amended).  For a record the cursor arrives at, a request or a write
    is issued exactly when the destination is null, the empty string or the
    one-character string made of a single space. *)
Theorem attempt_iff_blank ds i f :
  features ds !! i = Some f →
  let run := add_geomark_url service ds in
  reached run i →
  attempted run i ↔ dest f = None ∨ dest f = Some "" ∨ dest f = Some " ".
Proof.
  intros Hi run Hr. subst run. rewrite <- is_blank_true.
  pose proof (run_lookup ds i f Hi) as H. cbv zeta in H.
  destruct (outcome (cursor_after service ds i)) as [|ex].
  - destruct H as (_ & Hev & _). split.
    + by apply attempted_is_blank.
    + intros Hb.
      destruct (body_blank_attempt (factoryCode ds)
                  (Z.of_nat (length (features ds))) i f
                  (locals (cursor_after service ds i)) Hb) as (e & Hin & He).
      exists e. by rewrite (Hev e He).
  - by destruct H as (_ & _ & Hn).
Qed.

(** What a returned response leads to, for the record it was requested for. *)
Lemma response_recorded ds i f u d resp :
  features ds !! i = Some f →
  let run := add_geomark_url service ds in
  Post i u d (Returns resp) ∈ events run →
  let before := locals (cursor_after service ds i) in
  let vc := inspect_response resp (update_count before) in
  is_blank (dest f) = true
  ∧ (∃ g, SHAPE f = Some g ∧ u = post_url
          ∧ d = payload (WKT g) (factoryCode ds))
  ∧ outcome (cursor_after service ds i) = Normal
  ∧ features (value run) !! i = Some (updateRow f (Some vc.1, SHAPE f))
  ∧ update_count
      (locals (loop_body service (factoryCode ds)
                 (Z.of_nat (length (features ds))) i f before)) = vc.2.
Proof.
  intros Hi run Hin. subst run.
  pose proof (run_lookup ds i f Hi) as H. cbv zeta in H. cbv zeta.
  destruct (outcome (cursor_after service ds i)) as [|ex];
    [|destruct H as (_ & Hev & _); by apply Hev in Hin].
  destruct H as (Hv & Hev & _).
  rewrite (Hev (Post i u d (Returns resp)) eq_refl), loop_body_events in Hin
    by done.
  rewrite Hv, loop_body_value, loop_body_locals.
  destruct (is_blank (dest f)) eqn:Hb;
    [|rewrite visit_skip in Hin by done; by apply elem_of_nil in Hin].
  destruct (SHAPE f) as [g|] eqn:Hg.
  - rewrite (visit_post _ _ _ _ g) in Hin |- * by done. cbv zeta in Hin |- *.
    set (st := locals (cursor_after service ds i)) in *.
    assert (Hres : service (session st) post_url
                     (payload (WKT g) (factoryCode ds)) = Returns resp
                   ∧ u = post_url ∧ d = payload (WKT g) (factoryCode ds)).
    { destruct (r (after_post _ _)); simpl in Hin;
        rewrite ?elem_of_cons, elem_of_nil in Hin; destruct_or!;
        simplify_eq; done. }
    destruct Hres as (Hres & -> & ->). rewrite Hres. simpl.
    split_and!; eauto.
  - rewrite visit_null_geometry in Hin by done. simpl in Hin.
    apply list_elem_of_singleton in Hin. discriminate.
Qed.

(** The locals after [S i] records are those left by the iteration on
    record [i]. *)
Lemma cursor_after_S ds i f :
  features ds !! i = Some f →
  outcome (cursor_after service ds i) = Normal →
  locals (cursor_after service ds (S i))
  = locals (loop_body service (factoryCode ds)
              (Z.of_nat (length (features ds))) i f
              (locals (cursor_after service ds i))).
Proof.
  intros Hi HN. unfold cursor_after in *.
  rewrite (take_S_r _ _ _ Hi), for_rows_app. cbv zeta. rewrite HN. simpl.
  rewrite length_take_le by (apply lookup_lt_Some in Hi; lia).
  by destruct (outcome (loop_body _ _ _ _ _ _)).
Qed.

(** C6.  A record with blank destination and a geometry whose request came
    back with status 200: when the resolved URL is the request endpoint the
    destination becomes "Could not create Geomark URL for this geometry" and
    the count of updates stays; otherwise the destination becomes the
    resolved URL and the iteration raises the count of updates by one. *)
Theorem status_200_outcome ds i f g u d resp :
  features ds !! i = Some f →
  is_blank (dest f) = true →
  SHAPE f = Some g →
  let run := add_geomark_url service ds in
  Post i u d (Returns resp) ∈ events run →
  status_code resp = 200 →
  let before := update_count (locals (cursor_after service ds i)) in
  let after := update_count (locals (cursor_after service ds (S i))) in
  (url resp = "https://apps.gov.bc.ca/pub/geomark/geomarks/new" →
   (∃ f', features (value run) !! i = Some f'
          ∧ dest f' = Some "Could not create Geomark URL for this geometry")
   ∧ after = before)
  ∧ (url resp ≠ "https://apps.gov.bc.ca/pub/geomark/geomarks/new" →
     (∃ f', features (value run) !! i = Some f' ∧ dest f' = Some (url resp))
     ∧ after = before + 1).
Proof.
  intros Hi _ _ run Hin H200. subst run. cbv zeta.
  destruct (response_recorded ds i f u d resp Hi Hin)
    as (_ & _ & HN & Hv & Hc).
  rewrite (cursor_after_S ds i f Hi HN), Hc, Hv.
  unfold inspect_response. rewrite H200. simpl.
  split; intros Hu.
  - rewrite bool_decide_eq_true_2 by done. simpl.
    split; [|done]. eexists. split; [done|]. apply dest_updateRow.
  - rewrite bool_decide_eq_false_2 by done. simpl.
    split; [|done]. eexists. split; [done|]. apply dest_updateRow.
Qed.

(** C7.  A record with blank destination and a geometry whose request came
    back with a status other than 200 gets the status message with the
    status code in decimal. *)
Theorem other_status_outcome ds i f g u d resp :
  features ds !! i = Some f →
  is_blank (dest f) = true →
  SHAPE f = Some g →
  let run := add_geomark_url service ds in
  Post i u d (Returns resp) ∈ events run →
  status_code resp ≠ 200 →
  ∃ f', features (value run) !! i = Some f'
        ∧ dest f' = Some ("Geomark Web Service returned status code "
                          +:+ pretty (status_code resp)
                          +:+ "; try running the tool again").
Proof.
  intros Hi _ _ run Hin H200. subst run.
  destruct (response_recorded ds i f u d resp Hi Hin)
    as (_ & _ & _ & Hv & _).
  eexists. split; [exact Hv|]. rewrite dest_updateRow.
  unfold inspect_response.
  destruct (Z.eqb_spec (status_code resp) 200) as [|_]; done.
Qed.

(** *** Frame *)

Lemma visit_frame srid i f st :
  let f' := value (visit_row service srid i f st) in
  SHAPE f' = SHAPE f ∧ ∀ k, k ≠ dest_field → attrs f' !! k = attrs f !! k.
Proof.
  cbv zeta. destruct (is_blank (dest f)) eqn:Hb.
  - destruct (SHAPE f) as [g|] eqn:Hg.
    + rewrite (visit_post _ _ _ _ g) by done. cbv zeta.
      destruct (r (after_post _ _)); simpl; [|by rewrite Hg].
      split; [done|]. intros k Hk. by rewrite lookup_insert_ne.
    + rewrite visit_null_geometry by done. simpl.
      split; [done|]. intros k Hk. by rewrite lookup_insert_ne.
  - by rewrite visit_skip.
Qed.

Lemma visit_writes_back_shape srid i f st j row :
  UpdateRow j row ∈ events (visit_row service srid i f st) →
  row.2 = SHAPE f.
Proof.
  destruct (is_blank (dest f)) eqn:Hb.
  - destruct (SHAPE f) as [g|] eqn:Hg.
    + rewrite (visit_post _ _ _ _ g) by done. cbv zeta.
      destruct (r (after_post _ _)); simpl;
        rewrite ?elem_of_cons, elem_of_nil; intros Hin;
        destruct_or!; by simplify_eq.
    + rewrite visit_null_geometry by done. simpl.
      rewrite list_elem_of_singleton. intros Hin. by simplify_eq.
  - rewrite visit_skip by done. simpl. by rewrite elem_of_nil.
Qed.

(** C10.  Whether the run returns or raises, it keeps the number of
    records, and every record keeps its geometry and every attribute other
    than GeomarkURL; the geometry handed to [updateRow] is the one that was
    read. *)
Theorem only_destination_changes ds :
  let run := add_geomark_url service ds in
  length (features (value run)) = length (features ds)
  ∧ (∀ i f f',
       features ds !! i = Some f →
       features (value run) !! i = Some f' →
       SHAPE f' = SHAPE f
       ∧ ∀ k, k ≠ "GeomarkURL" → attrs f' !! k = attrs f !! k)
  ∧ (∀ i f row,
       features ds !! i = Some f →
       UpdateRow i row ∈ events run → row.2 = SHAPE f).
Proof.
  cbv zeta. split_and!.
  - rewrite run_features. apply for_rows_length.
  - intros i f f' Hi Hf'. pose proof (run_lookup ds i f Hi) as H.
    cbv zeta in H. destruct (outcome (cursor_after service ds i)) as [|ex].
    + destruct H as (Hv & _). rewrite Hv in Hf'. simplify_eq.
      rewrite loop_body_value. apply visit_frame.
    + destruct H as (Hv & _). rewrite Hv in Hf'. by simplify_eq.
  - intros i f row Hi Hin. pose proof (run_lookup ds i f Hi) as H.
    cbv zeta in H. destruct (outcome (cursor_after service ds i)) as [|ex].
    + destruct H as (_ & Hev & _).
      rewrite (Hev (UpdateRow i row) eq_refl) in Hin.
      rewrite loop_body_events in Hin by done.
      by eapply visit_writes_back_shape.
    + destruct H as (_ & Hev & _). by apply Hev in Hin.
Qed.

End Run.

Example msg_status_500 :
  msg_status 500
  = "Geomark Web Service returned status code 500; try running the tool again".
Proof. reflexivity. Qed.

(** ** Field provisioning *)

Lemma add_field_calls_app xs ys :
  add_field_calls (xs ++ ys) = add_field_calls xs ++ add_field_calls ys.
Proof. apply List.filter_app. Qed.

Lemma add_field_calls_none evs :
  (∀ e, e ∈ evs → is_AddField e = false) → add_field_calls evs = [].
Proof.
  induction evs as [|e evs IH]; intros H; simpl; [done|].
  rewrite (H e) by (apply elem_of_cons; by left).
  apply IH. intros e' He'. apply H, elem_of_cons. by right.
Qed.

Lemma provision_present flds :
  "GeomarkURL" ∈ field_name <$> flds →
  provision flds
  = (flds, [AddMessage "GeomarkURL field already exists in input layer"]).
Proof. intros H. unfold provision. by rewrite bool_decide_eq_true_2. Qed.

Lemma provision_absent flds :
  "GeomarkURL" ∉ field_name <$> flds →
  provision flds
  = (flds ++ [geomark_field],
     [AddField "GeomarkURL" "TEXT" 100;
      AddMessage "Added GeomarkURL field to input layer"]).
Proof. intros H. unfold provision. by rewrite bool_decide_eq_false_2. Qed.

(** Once provisioned, the field is listed. *)
Lemma provision_lists_field flds :
  "GeomarkURL" ∈ field_name <$> (provision flds).1.
Proof.
  destruct (decide ("GeomarkURL" ∈ field_name <$> flds)) as [Hin | Hout].
  - by rewrite provision_present.
  - rewrite provision_absent by done. simpl.
    rewrite fmap_app, elem_of_app. right. simpl. apply elem_of_cons. by left.
Qed.

Section Provisioning.

Variable service : nat → string → Payload → PostResult.

Lemma visit_events_recorded srid i f st e :
  e ∈ events (visit_row service srid i f st) → record_of e = Some i.
Proof.
  destruct (is_blank (dest f)) eqn:Hb.
  - destruct (SHAPE f) as [g|] eqn:Hg.
    + rewrite (visit_post _ _ _ _ g) by done. cbv zeta.
      destruct (r (after_post _ _)); simpl;
        rewrite ?elem_of_cons, elem_of_nil; intros Hin;
        destruct_or!; by subst.
    + rewrite visit_null_geometry by done. simpl.
      rewrite list_elem_of_singleton. by intros ->.
  - rewrite visit_skip by done. simpl. by rewrite elem_of_nil.
Qed.

Lemma body_no_AddField srid total i f st e :
  e ∈ events (loop_body service srid total i f st) → is_AddField e = false.
Proof.
  intros Hin. destruct e as [m | n t l | j u d res | j row]; try done.
  exfalso. unfold loop_body in Hin.
  assert (Hv : AddField n t l ∉ events (visit_row service srid i f st)).
  { intros Hv. by apply visit_events_recorded in Hv. }
  apply Hv. repeat case_match; simpl in Hin; try done.
  apply elem_of_app in Hin as [Hin | Hin]; [done|].
  by apply list_elem_of_singleton in Hin.
Qed.

Lemma for_rows_no_AddField srid total fs : ∀ i st e,
  e ∈ events (for_rows service srid total i fs st) → is_AddField e = false.
Proof.
  induction fs as [|f fs IH]; intros i st e; simpl.
  - by rewrite elem_of_nil.
  - destruct (outcome (loop_body service srid total i f st)); simpl.
    + rewrite elem_of_app. intros [Hin | Hin];
        [by eapply body_no_AddField | by eapply IH].
    + by apply body_no_AddField.
Qed.

Lemma run_add_field_calls ds :
  add_field_calls (events (add_geomark_url service ds))
  = add_field_calls (provision (fields ds)).2.
Proof.
  unfold add_geomark_url. destruct (provision _) as [flds evs]; simpl.
  rewrite !add_field_calls_app. simpl.
  rewrite (add_field_calls_none (events _)), app_nil_r; [done|].
  apply for_rows_no_AddField.
Qed.

(** C8.  When a field named GeomarkURL is listed, the run leaves the field
    definitions as they are and calls [AddField] not at all; when none is,
    it appends one TEXT field of length 100 named GeomarkURL through exactly
    one [AddField] call; a run on the dataset left by a run leaves the field
    definitions as they are. *)
Theorem provisioning_idempotent ds :
  let run := add_geomark_url service ds in
  ("GeomarkURL" ∈ field_name <$> fields ds →
   fields (value run) = fields ds ∧ add_field_calls (events run) = [])
  ∧ ("GeomarkURL" ∉ field_name <$> fields ds →
     fields (value run)
     = fields ds ++ [{| field_name := "GeomarkURL"; field_type := "TEXT";
                        field_length := 100 |}]
     ∧ add_field_calls (events run) = [AddField "GeomarkURL" "TEXT" 100])
  ∧ (let again := add_geomark_url service (value run) in
     fields (value again) = fields (value run)
     ∧ add_field_calls (events again) = []).
Proof.
  cbv zeta. rewrite !run_add_field_calls, !run_fields. split_and!.
  - intros Hin. by rewrite provision_present.
  - intros Hout. by rewrite provision_absent.
  - by rewrite provision_present by apply provision_lists_field.
  - by rewrite provision_present by apply provision_lists_field.
Qed.

End Provisioning.

(** ** Running again *)

Lemma inspect_response_not_blank resp count :
  url_not_blank resp → is_blank (Some (inspect_response resp count).1) = false.
Proof.
  intros Hu. unfold inspect_response.
  destruct (status_code resp =? 200); [|apply is_blank_msg_status].
  by case_bool_decide.
Qed.

Section Rerun.

Variable service : nat → string → Payload → PostResult.
Variables (srid row_total : Z).

(** An iteration that does not raise leaves a destination that is not
    blank, as long as the responses it may look at carry a URL. *)
Lemma body_leaves_not_blank i f st :
  let s := loop_body service srid row_total i f st in
  (∀ resp, r st = Some resp → url_not_blank resp) →
  (∀ u d resp, Post i u d (Returns resp) ∈ events s → url_not_blank resp) →
  outcome s = Normal →
  is_blank (dest (value s)) = false
  ∧ (∀ resp, r (locals s) = Some resp → url_not_blank resp).
Proof.
  cbv zeta. intros Hr Hev.
  assert (Hev' : ∀ u d resp,
            Post i u d (Returns resp) ∈ events (visit_row service srid i f st) →
            url_not_blank resp).
  { intros u d resp Hin. apply (Hev u d). by rewrite loop_body_events. }
  clear Hev. rewrite loop_body_outcome, loop_body_value, loop_body_locals.
  destruct (is_blank (dest f)) eqn:Hb.
  - destruct (SHAPE f) as [g|] eqn:Hg.
    + rewrite (visit_post _ _ _ _ g) in Hev' |- * by done.
      cbv zeta in Hev' |- *.
      destruct (service (session st) post_url (payload (WKT g) srid))
        as [resp|] eqn:Hs; simpl in *.
      * intros _. assert (Hgood : url_not_blank resp).
        { eapply Hev'. apply elem_of_cons. by left. }
        split; [|by intros ? [= <-]].
        rewrite dest_updateRow. by apply inspect_response_not_blank.
      * destruct (r st) as [resp|] eqn:Hrst; simpl; [|done].
        assert (Hgood : url_not_blank resp) by (by apply Hr).
        intros _. split.
        { rewrite dest_updateRow. by apply inspect_response_not_blank. }
        intros resp' Heq. rewrite Hrst in Heq. by simplify_eq.
    + rewrite visit_null_geometry by done. simpl. intros _.
      split; [by rewrite dest_updateRow | done].
  - rewrite visit_skip by done. simpl. done.
Qed.

Lemma for_rows_leaves_not_blank fs : ∀ i st,
  let l := for_rows service srid row_total i fs st in
  (∀ resp, r st = Some resp → url_not_blank resp) →
  (∀ j u d resp, Post j u d (Returns resp) ∈ events l → url_not_blank resp) →
  outcome l = Normal →
  Forall (λ f, is_blank (dest f) = false) (value l).
Proof.
  induction fs as [|f fs IH]; intros i st; simpl; [by constructor|].
  intros Hr Hev.
  pose proof (body_leaves_not_blank i f st) as Hb. cbv zeta in Hb.
  destruct (outcome (loop_body service srid row_total i f st)) as [|ex] eqn:Ho;
    simpl in *; [|done].
  intros HN. destruct Hb as [Hnb Hr']; [done | | done |].
  { intros u d resp Hin. apply (Hev i u d). apply elem_of_app. by left. }
  constructor; [done|]. apply IH; [done | | done].
  intros j u d resp Hin. apply (Hev j u d). apply elem_of_app. by right.
Qed.

(** Over records that all carry a destination the loop does nothing. *)
Lemma for_rows_skip_all fs :
  Forall (λ f, is_blank (dest f) = false) fs →
  ∀ i st,
    let l := for_rows service srid row_total i fs st in
    outcome l = Normal ∧ value l = fs ∧ session (locals l) = session st
    ∧ ∀ e, e ∈ events l → record_of e = None.
Proof.
  induction 1 as [|f fs Hf _ IH]; intros i st; simpl.
  - split_and!; try done. intros e. by rewrite elem_of_nil.
  - pose proof (loop_body_outcome service srid row_total i f st) as Ho.
    pose proof (loop_body_value service srid row_total i f st) as Hv.
    pose proof (loop_body_locals service srid row_total i f st) as Hl.
    rewrite visit_skip in Ho, Hv, Hl by done. simpl in Ho, Hv, Hl.
    rewrite Ho. simpl.
    destruct (IH (S i) (locals (loop_body service srid row_total i f st)))
      as (HN & Hval & Hs & Hev).
    split_and!; [done | by rewrite Hv, Hval | by rewrite Hs, Hl |].
    intros e. rewrite elem_of_app. intros [Hin | Hin]; [|by apply Hev].
    destruct (record_of e) as [j|] eqn:He; [|done].
    pose proof (body_record_of _ _ _ _ _ _ _ _ Hin He) as ->.
    by apply body_skip_events in Hin.
Qed.

End Rerun.

(** C9.  After a first run that returned normally, in which every response
    received carried a resolved URL that is not blank, every record has a
    destination that is not blank; a second run on the dataset it left, with
    the service behaving in any way, sends no request, returns normally and
    leaves the records as they are. *)
Theorem second_run_sends_nothing service1 service2 ds :
  let run1 := add_geomark_url service1 ds in
  outcome run1 = Normal →
  (∀ j u d resp, Post j u d (Returns resp) ∈ events run1 →
                 url resp ≠ "" ∧ url resp ≠ " ") →
  let run2 := add_geomark_url service2 (value run1) in
  Forall (λ f, is_blank (dest f) = false) (features (value run1))
  ∧ (∀ j u d res, Post j u d res ∉ events run2)
  ∧ session (locals run2) = 0%nat
  ∧ outcome run2 = Normal
  ∧ features (value run2) = features (value run1).
Proof.
  intros run1 HN Hurl run2.
  assert (Hall : Forall (λ f, is_blank (dest f) = false)
                        (features (value run1))).
  { subst run1. rewrite run_features. rewrite run_outcome in HN.
    apply for_rows_leaves_not_blank; [done | | done].
    intros j u d resp Hin. unfold url_not_blank. simpl.
    apply bool_decide_eq_false. rewrite !elem_of_cons, elem_of_nil.
    destruct (Hurl j u d resp) as [H1 H2]; [by rewrite run_events|].
    intros [? | [? | []]]; done. }
  split; [done|]. subst run2.
  destruct (for_rows_skip_all service2 (factoryCode (value run1))
              (Z.of_nat (length (features (value run1))))
              (features (value run1)) Hall 0%nat init_locals)
    as (HN2 & Hv2 & Hs2 & Hev2).
  rewrite run_outcome, run_features, run_locals. split_and!; try done.
  intros j u d res Hin. rewrite run_events in Hin by done.
  by apply Hev2 in Hin.
Qed.

(** ** The transport failure path *)

(** After the [except] clause the code goes on to [if r.status_code == 200],
    so what a failed request leads to depends on [r]: unbound, the iteration
    raises before [updateRow]; bound by an earlier record, that record's
    response is inspected and its outcome written. *)
Lemma visit_transport_failure service srid i f g st :
  is_blank (dest f) = true → SHAPE f = Some g →
  service (session st) post_url (payload (WKT g) srid) = Raises →
  let v := visit_row service srid i f st in
  match r st with
  | None => outcome v = Raised (UnboundLocalError "r") ∧ value v = f
  | Some resp =>
      outcome v = Normal
      ∧ dest (value v) = Some (inspect_response resp (update_count st)).1
  end.
Proof.
  intros Hb Hg Hs. cbv zeta. rewrite (visit_post _ _ _ _ g) by done.
  cbv zeta. rewrite Hs. simpl. destruct (r st) as [resp|]; simpl; [|done].
  by rewrite dest_updateRow.
Qed.

(** C1.  The code at a transport failure.  With one blank record and the
    service out of reach, the run raises [UnboundLocalError] on [r], the
    record's destination stays null and the only event of the record is the
    request.  With two blank records, the first request answered and the
    second failing, the second record gets the first record's URL and counts
    as an update.  In neither run does the failed record hold the failure
    message. *)
Theorem transport_failure_not_recorded :
  (let run := add_geomark_url (scripted []) (layer [blank_a]) in
   outcome run = Raised (UnboundLocalError "r")
   ∧ dest <$> features (value run) = [None]
   ∧ record_events (events run)
     = [Post 0 post_url (payload "POINT (1200000 480000)" 3005) Raises])
  ∧ (let run := add_geomark_url (scripted [Returns created_a; Raises])
                  (layer [blank_a; blank_b]) in
     outcome run = Normal
     ∧ dest <$> features (value run)
       = [Some "https://apps.gov.bc.ca/pub/geomark/geomarks/gm-A7";
          Some "https://apps.gov.bc.ca/pub/geomark/geomarks/gm-A7"]
     ∧ update_count (locals run) = 2
     ∧ record_events (events run)
       = [Post 0 post_url (payload "POINT (1200000 480000)" 3005)
               (Returns created_a);
          UpdateRow 0
            (Some "https://apps.gov.bc.ca/pub/geomark/geomarks/gm-A7",
             Some lot_a);
          Post 1 post_url (payload "POINT (1200500 480250)" 3005) Raises;
          UpdateRow 1
            (Some "https://apps.gov.bc.ca/pub/geomark/geomarks/gm-A7",
             Some lot_b)]).
Proof. vm_compute. repeat split. Qed.

(** C2.  The code at a record-level failure.  With a record without
    geometry followed by two blank records and the service out of reach, the
    first record is marked, then the failed request of the second makes
    [add_geomark_url] raise [UnboundLocalError] to its caller: the second
    record's destination stays null and the third record is never read. *)
Theorem transport_failure_raises_to_caller :
  let run := add_geomark_url (scripted [])
               (layer [no_shape; blank_a; blank_b]) in
  outcome run = Raised (UnboundLocalError "r")
  ∧ dest <$> features (value run) = [Some "Null geometry"; None; Some " "]
  ∧ read_count (locals run) = 2
  ∧ record_events (events run)
    = [UpdateRow 0 (Some "Null geometry", None);
       Post 1 post_url (payload "POINT (1200000 480000)" 3005) Raises].
Proof. vm_compute. repeat split. Qed.

(** C5.  The code at a blank record without geometry that comes after a
    failed first request.  With a blank record with a geometry followed by a
    blank record without geometry and the service out of reach, the run
    raises [UnboundLocalError] on [r] at the first record; the cursor never
    gets to the second record, whose destination stays null instead of
    becoming "Null geometry".  No request is sent for it. *)
Theorem null_geometry_left_unmarked :
  let ds := layer [blank_a; no_shape] in
  let run := add_geomark_url (scripted []) ds in
  (features ds !! 1%nat = Some no_shape
   ∧ is_blank (dest no_shape) = true
   ∧ SHAPE no_shape = None)
  ∧ outcome run = Raised (UnboundLocalError "r")
  ∧ read_count (locals run) = 1
  ∧ dest <$> features (value run) = [None; None]
  ∧ record_events (events run)
    = [Post 0 post_url (payload "POINT (1200000 480000)" 3005) Raises].
Proof. vm_compute. repeat split. Qed.

(** ** The claims at sample inputs *)

(** C3 as first stated, with "blank" read as null, empty or whitespace
    only, fails: a destination of two spaces is whitespace only, yet nothing
    is done for the record. *)
Lemma two_spaces_is_skipped :
  ¬ (∀ service ds i f,
       features ds !! i = Some f →
       reached (add_geomark_url service ds) i →
       attempted (add_geomark_url service ds) i
       ↔ null_empty_or_whitespace (dest f) = true).
Proof.
  intros H.
  assert (Hr : reached (add_geomark_url (scripted []) (layer [two_spaces])) 0)
    by reflexivity.
  destruct (H (scripted []) (layer [two_spaces]) 0%nat two_spaces eq_refl Hr)
    as [_ Hatt].
  specialize (Hatt eq_refl).
  apply (attempted_is_blank (scripted []) (layer [two_spaces]) 0 two_spaces
           eq_refl) in Hatt.
  discriminate Hatt.
Qed.

Lemma attempt_iff_blank_witness :
  let run := add_geomark_url (scripted [Returns created_a])
               (layer [blank_b; filled]) in
  (features (layer [blank_b; filled]) !! 0%nat = Some blank_b
   ∧ reached run 0)
  ∧ (attempted run 0
     ↔ dest blank_b = None ∨ dest blank_b = Some "" ∨ dest blank_b = Some " ").
Proof.
  cbv zeta. split; [split; [reflexivity | by vm_compute]|].
  apply (attempt_iff_blank (scripted [Returns created_a])
           (layer [blank_b; filled]) 0 blank_b);
    [reflexivity | by vm_compute].
Defined.

Lemma nonblank_record_untouched_witness :
  let run := add_geomark_url (scripted [Returns created_a])
               (layer [blank_a; filled]) in
  is_blank (dest filled) = false
  ∧ features (value run) !! 1%nat = Some filled
  ∧ (∀ row, UpdateRow 1 row ∉ events run)
  ∧ (∀ u d res, Post 1 u d res ∉ events run).
Proof.
  cbv zeta. split; [reflexivity|].
  apply (nonblank_record_untouched (scripted [Returns created_a])
           (layer [blank_a; filled]) 1 filled); reflexivity.
Defined.

Lemma status_200_outcome_witness :
  let ds := layer [blank_a; blank_b] in
  let run := add_geomark_url (scripted [Returns created_a; Returns rejected])
               ds in
  (Post 0 post_url (payload (WKT lot_a) 3005) (Returns created_a) ∈ events run
   ∧ status_code created_a = 200)
  ∧ (∃ f', features (value run) !! 0%nat = Some f'
           ∧ dest f' = Some (url created_a))
  ∧ update_count (locals (cursor_after
                            (scripted [Returns created_a; Returns rejected])
                            ds 1)) = 1.
Proof.
  cbv zeta.
  assert (Hin : Post 0 post_url (payload (WKT lot_a) 3005) (Returns created_a)
                ∈ events (add_geomark_url
                            (scripted [Returns created_a; Returns rejected])
                            (layer [blank_a; blank_b]))) by log_entry.
  split; [split; [exact Hin | reflexivity]|].
  destruct (status_200_outcome
              (scripted [Returns created_a; Returns rejected])
              (layer [blank_a; blank_b]) 0 blank_a lot_a _ _ created_a
              eq_refl eq_refl eq_refl Hin eq_refl) as [_ Hne].
  destruct Hne as [Hd Hc]; [discriminate|]. split; [exact Hd | exact Hc].
Defined.

Lemma other_status_outcome_witness :
  let run := add_geomark_url (scripted [Returns server_error])
               (layer [blank_a]) in
  (Post 0 post_url (payload (WKT lot_a) 3005) (Returns server_error)
   ∈ events run
   ∧ status_code server_error ≠ 200)
  ∧ ∃ f', features (value run) !! 0%nat = Some f'
          ∧ dest f' = Some ("Geomark Web Service returned status code "
                            +:+ pretty (status_code server_error)
                            +:+ "; try running the tool again").
Proof.
  cbv zeta.
  assert (Hin : Post 0 post_url (payload (WKT lot_a) 3005)
                     (Returns server_error)
                ∈ events (add_geomark_url (scripted [Returns server_error])
                            (layer [blank_a]))) by log_entry.
  split; [split; [exact Hin | discriminate]|].
  apply (other_status_outcome (scripted [Returns server_error])
           (layer [blank_a]) 0 blank_a lot_a _ _ server_error
           eq_refl eq_refl eq_refl Hin).
  discriminate.
Defined.

Lemma provisioning_idempotent_witness :
  let run := add_geomark_url (scripted [Returns created_a])
               (layer [blank_a]) in
  let again := add_geomark_url (scripted [Returns created_a]) (value run) in
  ("GeomarkURL" ∉ field_name <$> fields (layer [blank_a]))
  ∧ (fields (value run)
     = fields (layer [blank_a])
       ++ [{| field_name := "GeomarkURL"; field_type := "TEXT";
              field_length := 100 |}]
     ∧ add_field_calls (events run) = [AddField "GeomarkURL" "TEXT" 100])
  ∧ (fields (value again) = fields (value run)
     ∧ add_field_calls (events again) = []).
Proof.
  cbv zeta.
  assert (Hout : "GeomarkURL" ∉ field_name <$> fields (layer [blank_a])).
  { simpl. rewrite list_elem_of_singleton. discriminate. }
  split; [exact Hout|].
  destruct (provisioning_idempotent (scripted [Returns created_a])
              (layer [blank_a])) as (_ & Habsent & Hagain).
  split; [exact (Habsent Hout) | exact Hagain].
Defined.

Lemma second_run_sends_nothing_witness :
  let run1 := add_geomark_url (scripted [Returns created_a; Returns rejected])
                (layer [blank_a; no_shape; blank_b; filled]) in
  let run2 := add_geomark_url (scripted []) (value run1) in
  outcome run1 = Normal
  ∧ (∀ j u d res, Post j u d res ∉ events run2)
  ∧ outcome run2 = Normal
  ∧ features (value run2) = features (value run1).
Proof.
  cbv zeta.
  assert (HN : outcome (add_geomark_url
                          (scripted [Returns created_a; Returns rejected])
                          (layer [blank_a; no_shape; blank_b; filled]))
               = Normal) by reflexivity.
  split; [exact HN|].
  destruct (second_run_sends_nothing
              (scripted [Returns created_a; Returns rejected]) (scripted [])
              (layer [blank_a; no_shape; blank_b; filled]) HN)
    as (_ & Hposts & _ & HN2 & Hsame).
  - intros j u d resp Hin. eval_log_in Hin. log_cases Hin;
      simplify_eq; split; discriminate.
  - split; [exact Hposts|]. split; [exact HN2 | exact Hsame].
Defined.

Lemma only_destination_changes_witness :
  let run := add_geomark_url (scripted [Returns created_a])
               (layer [blank_a; no_shape]) in
  length (features (value run)) = 2%nat
  ∧ (∀ f', features (value run) !! 0%nat = Some f' →
           SHAPE f' = Some lot_a ∧ attrs f' !! "NAME" = Some "lot a").
Proof.
  cbv zeta.
  destruct (only_destination_changes (scripted [Returns created_a])
              (layer [blank_a; no_shape])) as (Hlen & Hframe & _).
  split; [exact Hlen|]. intros f' Hf'.
  destruct (Hframe 0%nat blank_a f' eq_refl Hf') as [Hs Ha].
  split; [exact Hs|]. rewrite Ha by discriminate. reflexivity.
Defined.

(** * Further properties of [add_geomark_url] *)

(** ** One iteration, by cases *)

Lemma visit_row_spec service srid i f st :
  visit_spec service srid i f st (visit_row service srid i f st).
Proof.
  destruct (is_blank (dest f)) eqn:Hb.
  - destruct (SHAPE f) as [g|] eqn:Hg.
    + rewrite (visit_post _ _ _ _ g) by done. cbv zeta.
      destruct (service (session st) post_url (payload (WKT g) srid))
        as [resp|] eqn:Hs; simpl.
      * by apply visit_answered.
      * destruct (r st) as [resp|] eqn:Hr;
          unfold with_counts, after_post; simpl; rewrite Hr.
        -- by apply visit_stale.
        -- by apply visit_unbound.
    + rewrite visit_null_geometry by done. by apply visit_marked.
  - rewrite visit_skip by done. by apply visit_skipped.
Qed.

Lemma loop_body_eq service srid total i f st :
  let v := visit_row service srid i f st in
  loop_body service srid total i f st
  = mkResult (outcome v) (value v) (locals v)
             (events v ++ progress_events total v).
Proof.
  cbv zeta. unfold loop_body, progress_events.
  destruct (visit_row service srid i f st) as [o x l evs]; simpl.
  destruct o; [|by rewrite app_nil_r].
  by destruct ((_ =? _) || _); [|rewrite app_nil_r].
Qed.

Lemma progress_events_messages total v e :
  e ∈ progress_events total v → ∃ m, e = AddMessage m.
Proof.
  unfold progress_events. repeat case_match;
    rewrite ?list_elem_of_singleton, ?elem_of_nil; naive_solver.
Qed.

(** ** Filters over logs *)

Lemma filter_nothing {A} (p : A → bool) (l : list A) :
  (∀ x, x ∈ l → p x = false) → List.filter p l = [].
Proof.
  induction l as [|x l IH]; intros H; simpl; [done|].
  rewrite (H x) by (apply elem_of_cons; by left).
  apply IH. intros y Hy. apply H, elem_of_cons. by right.
Qed.

Lemma filter_everything {A} (p : A → bool) (l : list A) :
  (∀ x, x ∈ l → p x = true) → List.filter p l = l.
Proof.
  induction l as [|x l IH]; intros H; simpl; [done|].
  rewrite (H x) by (apply elem_of_cons; by left).
  f_equal. apply IH. intros y Hy. apply H, elem_of_cons. by right.
Qed.

Lemma events_of_app i xs ys :
  events_of i (xs ++ ys) = events_of i xs ++ events_of i ys.
Proof. apply List.filter_app. Qed.

Lemma events_of_other i evs :
  (∀ e, e ∈ evs → record_of e ≠ Some i) → events_of i evs = [].
Proof.
  intros H. apply filter_nothing. intros e He.
  apply bool_decide_eq_false. by apply H.
Qed.

Lemma events_of_same i evs :
  (∀ e, e ∈ evs → record_of e = Some i) → events_of i evs = evs.
Proof.
  intros H. apply filter_everything. intros e He.
  apply bool_decide_eq_true. by apply H.
Qed.

Lemma events_of_body service srid total i f st :
  events_of i (events (loop_body service srid total i f st))
  = events (visit_row service srid i f st).
Proof.
  rewrite loop_body_eq. cbv zeta. simpl. rewrite events_of_app.
  rewrite (events_of_other i (progress_events _ _)), app_nil_r.
  - apply events_of_same. intros e. apply visit_events_recorded.
  - intros e He. by apply progress_events_messages in He as [m ->].
Qed.

(** ** The log of one record *)

Section RecordLog.

Variable service : nat → string → Payload → PostResult.
Variables (srid row_total : Z).

Lemma for_rows_events_of fs i st k f :
  fs !! k = Some f →
  let pre := for_rows service srid row_total i (take k fs) st in
  events_of (i + k) (events (for_rows service srid row_total i fs st))
  = match outcome pre with
    | Normal => events (visit_row service srid (i + k) f (locals pre))
    | Raised _ => []
    end.
Proof.
  intros Hk. pose proof (lookup_lt_Some _ _ _ Hk) as Hlt.
  assert (Hlen : length (take k fs) = k) by (rewrite length_take; lia).
  cbv zeta. rewrite <- (take_drop_middle fs k f Hk) at 1.
  rewrite for_rows_app. cbv zeta. rewrite Hlen.
  assert (Hpre : events_of (i + k)
                   (events (for_rows service srid row_total i (take k fs) st))
                 = []).
  { apply events_of_other. intros e Hin He.
    apply (for_rows_record_range _ _ _ _ _ _ _ _ Hin) in He. lia. }
  destruct (outcome (for_rows service srid row_total i (take k fs) st))
    as [|ex]; simpl; [|done].
  rewrite events_of_app, Hpre. simpl.
  destruct (outcome (loop_body _ _ _ _ _ _)); simpl.
  - rewrite events_of_app, events_of_body.
    rewrite (events_of_other _ (events (for_rows _ _ _ _ _ _))).
    + by rewrite app_nil_r.
    + intros e Hin He.
      apply (for_rows_record_range _ _ _ _ _ _ _ _ Hin) in He. lia.
  - apply events_of_body.
Qed.

End RecordLog.

Section RunLog.

Variable service : nat → string → Payload → PostResult.

Lemma run_events_eq ds :
  events (add_geomark_url service ds)
  = [AddMessage ("Spatial reference code of input dataset: "
                 +:+ pretty (factoryCode ds))]
    ++ (provision (fields ds)).2
    ++ [AddMessage ("Processing "
                    +:+ pretty (Z.of_nat (length (features ds)))
                    +:+ " feature(s) of input dataset")]
    ++ events (for_rows service (factoryCode ds)
                 (Z.of_nat (length (features ds))) 0%nat (features ds)
                 init_locals).
Proof. unfold add_geomark_url. by destruct (provision _). Qed.

Lemma run_events_of ds i :
  events_of i (events (add_geomark_url service ds))
  = events_of i (events (for_rows service (factoryCode ds)
                           (Z.of_nat (length (features ds))) 0%nat
                           (features ds) init_locals)).
Proof.
  rewrite run_events_eq, !events_of_app. simpl.
  rewrite (events_of_other i (provision _).2); [done|].
  intros e He. by rewrite (provision_record_of _ _ He).
Qed.

(** X1.  A request is only ever sent for a record with a blank destination
    and a geometry, to the fixed endpoint, with the payload built from that
    record's WKT and the spatial reference code of the dataset. *)
Theorem request_carries_record_geometry ds i u d res :
  Post i u d res ∈ events (add_geomark_url service ds) →
  ∃ f g,
    features ds !! i = Some f
    ∧ is_blank (dest f) = true
    ∧ SHAPE f = Some g
    ∧ u = "https://apps.gov.bc.ca/pub/geomark/geomarks/new"
    ∧ d = payload (WKT g) (factoryCode ds).
Proof.
  intros Hin.
  assert (Hi : (i < length (features ds))%nat).
  { rewrite run_events in Hin by done.
    pose proof (for_rows_record_range _ _ _ _ _ _ _ i Hin eq_refl). lia. }
  apply lookup_lt_is_Some in Hi as [f Hf].
  pose proof (run_lookup service ds i f Hf) as H. cbv zeta in H.
  destruct (outcome (cursor_after service ds i)) as [|ex].
  - destruct H as (_ & Hev & _). rewrite (Hev (Post i u d res) eq_refl) in Hin.
    rewrite loop_body_events in Hin by done.
    exists f.
    destruct (visit_row_spec service (factoryCode ds) i f
                (locals (cursor_after service ds i)))
      as [Hb | Hb Hg | g resp Hb Hg Hs vc | g resp Hb Hg Hs Hr vc
          | g Hb Hg Hs Hr];
      simpl in Hin; rewrite ?elem_of_cons, elem_of_nil in Hin;
      destruct_or!; simplify_eq; by exists g.
  - destruct H as (_ & Hev & _). by apply Hev in Hin.
Qed.

(** X2.  Per record the log holds nothing, or the write of the
    "Null geometry" marker, or one request, or one request followed by one
    write; a position past the last record has no event. *)
Theorem record_log_shape ds i :
  let evs := events_of i (events (add_geomark_url service ds)) in
  match features ds !! i with
  | None => evs = []
  | Some f =>
      evs = []
      ∨ (SHAPE f = None ∧ evs = [UpdateRow i (Some "Null geometry", None)])
      ∨ ∃ g res,
          SHAPE f = Some g
          ∧ let request := Post i post_url (payload (WKT g) (factoryCode ds))
                                res in
            evs = [request]
            ∨ ∃ v, evs = [request; UpdateRow i (Some v, Some g)]
  end.
Proof.
  cbv zeta. rewrite run_events_of.
  destruct (features ds !! i) as [f|] eqn:Hf.
  - pose proof (for_rows_events_of service (factoryCode ds)
                  (Z.of_nat (length (features ds))) (features ds) 0
                  init_locals i f Hf) as Hevs.
    cbv zeta in Hevs. simpl in Hevs. rewrite Hevs. clear Hevs.
    destruct (outcome (for_rows _ _ _ _ _ _)) as [|ex]; [|by left].
    destruct (visit_row_spec service (factoryCode ds) i f
                (locals (for_rows service (factoryCode ds)
                           (Z.of_nat (length (features ds))) 0
                           (take i (features ds)) init_locals)))
      as [Hb | Hb Hg | g resp Hb Hg Hs vc | g resp Hb Hg Hs Hr vc
          | g Hb Hg Hs Hr]; simpl.
    + by left.
    + right; left. done.
    + right; right. exists g, (Returns resp). split; [done|].
      right. by exists vc.1.
    + right; right. exists g, Raises. split; [done|].
      right. by exists vc.1.
    + right; right. exists g, Raises. split; [done|]. by left.
  - apply events_of_other. intros e Hin He.
    apply (for_rows_record_range _ _ _ _ _ _ _ _ Hin) in He.
    apply lookup_ge_None in Hf. lia.
Qed.

End RunLog.

(** ** When the run raises *)

Lemma post_results_app xs ys :
  post_results (xs ++ ys) = post_results xs ++ post_results ys.
Proof. apply omap_app. Qed.

Lemma post_results_progress total v : post_results (progress_events total v) = [].
Proof. unfold progress_events. by repeat case_match. Qed.

Lemma post_results_provision flds : post_results (provision flds).2 = [].
Proof. unfold provision. by case_bool_decide. Qed.

Section Abort.

Variable service : nat → string → Payload → PostResult.
Variables (srid row_total : Z).

Local Abbreviation body := (loop_body service srid row_total).
Local Abbreviation loop := (for_rows service srid row_total).

(** The requests of one iteration and what they do to [r]. *)
Lemma body_posts i f st :
  let s := body i f st in
  match outcome s with
  | Raised ex =>
      ex = UnboundLocalError "r" ∧ r st = None ∧ value s = f
      ∧ is_blank (dest f) = true
      ∧ ∃ g, SHAPE f = Some g
             ∧ events s = [Post i post_url (payload (WKT g) srid) Raises]
  | Normal =>
      (post_results (events s) = [] ∧ r (locals s) = r st)
      ∨ (∃ resp, post_results (events s) = [Returns resp]
                 ∧ r (locals s) = Some resp)
      ∨ (∃ resp, post_results (events s) = [Raises]
                 ∧ r st = Some resp ∧ r (locals s) = Some resp)
  end.
Proof.
  cbv zeta. rewrite loop_body_eq. cbv zeta. simpl.
  rewrite post_results_app, post_results_progress, app_nil_r.
  destruct (visit_row_spec service srid i f st)
    as [Hb | Hb Hg | g resp Hb Hg Hs vc | g resp Hb Hg Hs Hr vc
        | g Hb Hg Hs Hr]; simpl.
  - by left.
  - by left.
  - right; left. by exists resp.
  - right; right. by exists resp.
  - split_and!; try done. by exists g.
Qed.

(** A run that raises has stopped at a blank record with a geometry whose
    request was the first of the session and failed. *)
Lemma for_rows_raised fs : ∀ i st ex,
  let l := loop i fs st in
  outcome l = Raised ex →
  ∃ k f g,
    fs !! k = Some f ∧ is_blank (dest f) = true ∧ SHAPE f = Some g
    ∧ ex = UnboundLocalError "r"
    ∧ r st = None
    ∧ read_count (locals l) = read_count st + Z.of_nat k + 1
    ∧ post_results (events l) = [Raises]
    ∧ events_of (i + k) (events l)
      = [Post (i + k) post_url (payload (WKT g) srid) Raises]
    ∧ (∀ k', (k ≤ k')%nat → value l !! k' = fs !! k')
    ∧ (∀ e j, e ∈ events l → record_of e = Some j → (j ≤ i + k)%nat).
Proof.
  induction fs as [|f fs IH]; intros i st ex; simpl; [done|].
  pose proof (body_posts i f st) as Hp. cbv zeta in Hp.
  pose proof (body_read_count service srid row_total i f st) as Hrc.
  pose proof (body_record_of service srid row_total i f st) as Hrec.
  destruct (outcome (body i f st)) as [|ex'] eqn:Ho; simpl.
  - intros Hl.
    destruct (IH (S i) (locals (body i f st)) ex Hl)
      as (k & f' & g & Hk & Hb & Hg & -> & Hr & Hrd & Hposts & Hof & Hval
          & Hle).
    assert (Hquiet : post_results (events (body i f st)) = []
                     ∧ r st = None).
    { destruct Hp as [[Hq Hr'] | [(resp & _ & Hr') | (resp & _ & _ & Hr')]];
        [split; [done | congruence] | congruence | congruence]. }
    destruct Hquiet as [Hq Hrst].
    exists (S k), f', g. split_and!; try done.
    + lia.
    + by rewrite post_results_app, Hq, Hposts.
    + rewrite events_of_app, events_of_other.
      * simpl. by replace (i + S k)%nat with (S i + k)%nat by lia.
      * intros e Hin He. apply (Hrec _ _ Hin) in He. lia.
    + intros [|k'] Hk'; [lia|]. simpl. apply Hval. lia.
    + intros e j. rewrite elem_of_app. intros [Hin | Hin] He.
      * apply (Hrec _ _ Hin) in He. lia.
      * specialize (Hle _ _ Hin He). lia.
  - intros [= <-]. destruct Hp as (-> & Hr & Hv & Hb & g & Hg & Hev).
    exists 0%nat, f, g. rewrite Nat.add_0_r, Hev. split_and!; try done.
    + lia.
    + apply events_of_same. intros e. rewrite list_elem_of_singleton.
      by intros ->.
    + intros [|k'] _; simpl; [by rewrite Hv | done].
    + intros e j. rewrite list_elem_of_singleton. intros -> [= <-]. lia.
Qed.

(** Once [r] is bound the loop cannot raise. *)
Lemma for_rows_bound fs : ∀ i st,
  is_Some (r st) → outcome (loop i fs st) = Normal.
Proof.
  induction fs as [|f fs IH]; intros i st Hr; simpl; [done|].
  pose proof (body_posts i f st) as Hp. cbv zeta in Hp.
  destruct (outcome (body i f st)) as [|ex] eqn:Ho; simpl.
  - apply IH.
    destruct Hp as [[_ Hr'] | [(resp & _ & Hr') | (resp & _ & _ & Hr')]];
      rewrite Hr'; eauto.
  - destruct Hp as (_ & Hn & _). rewrite Hn in Hr. by destruct Hr.
Qed.

(** With [r] unbound, a first request that fails makes the loop raise. *)
Lemma for_rows_first_request_fails fs : ∀ i st,
  r st = None →
  head (post_results (events (loop i fs st))) = Some Raises →
  outcome (loop i fs st) ≠ Normal.
Proof.
  induction fs as [|f fs IH]; intros i st Hr; simpl; [done|].
  pose proof (body_posts i f st) as Hp. cbv zeta in Hp.
  destruct (outcome (body i f st)) as [|ex] eqn:Ho; simpl; [|done].
  rewrite post_results_app.
  destruct Hp as [[Hq Hr'] | [(resp & Hq & Hr') | (resp & Hq & Hr' & _)]];
    rewrite Hq; simpl.
  - apply IH. congruence.
  - done.
  - congruence.
Qed.

End Abort.

Section RunAbort.

Variable service : nat → string → Payload → PostResult.

Lemma run_post_results ds :
  post_results (events (add_geomark_url service ds))
  = post_results (events (for_rows service (factoryCode ds)
                            (Z.of_nat (length (features ds))) 0%nat
                            (features ds) init_locals)).
Proof.
  rewrite run_events_eq, !post_results_app, post_results_provision. done.
Qed.

(** X3.  A run that raises stopped at a blank record with a geometry whose
    request failed: that request is the only one the run sent and the only
    event of the record, the exception is the unbound [r], the record and
    all later ones are as they were, and nothing was done for later
    records. *)
Theorem raised_run_stopped_at_failed_request ds ex :
  let run := add_geomark_url service ds in
  outcome run = Raised ex →
  ∃ i f g,
    features ds !! i = Some f ∧ is_blank (dest f) = true ∧ SHAPE f = Some g
    ∧ ex = UnboundLocalError "r"
    ∧ read_count (locals run) = Z.of_nat i + 1
    ∧ post_results (events run) = [Raises]
    ∧ events_of i (events run)
      = [Post i post_url (payload (WKT g) (factoryCode ds)) Raises]
    ∧ (∀ k, (i ≤ k)%nat → features (value run) !! k = features ds !! k)
    ∧ (∀ k, (i < k)%nat → events_of k (events run) = []).
Proof.
  intros run Hl. subst run. rewrite run_outcome in Hl.
  destruct (for_rows_raised service (factoryCode ds)
              (Z.of_nat (length (features ds))) (features ds) 0 init_locals
              ex Hl)
    as (k & f & g & Hk & Hb & Hg & -> & _ & Hrd & Hposts & Hof & Hval & Hle).
  exists k, f, g. rewrite run_locals, run_post_results, run_features.
  split_and!; try done.
  - by rewrite run_events_of.
  - intros k' Hk'. rewrite run_events_of. apply events_of_other.
    intros e Hin He. specialize (Hle _ _ Hin He). lia.
Qed.

(** X4.  The run returns normally exactly when the first request it sends,
    if it sends any, does not fail. *)
Theorem returns_iff_first_request_answered ds :
  let run := add_geomark_url service ds in
  outcome run = Normal ↔ head (post_results (events run)) ≠ Some Raises.
Proof.
  cbv zeta. rewrite run_outcome, run_post_results. split.
  - intros HN Hh.
    by apply (for_rows_first_request_fails service (factoryCode ds)
                (Z.of_nat (length (features ds))) (features ds) 0
                init_locals eq_refl Hh).
  - intros Hh.
    destruct (outcome (for_rows _ _ _ _ _ _)) as [|ex] eqn:Ho; [done|].
    destruct (for_rows_raised service (factoryCode ds)
                (Z.of_nat (length (features ds))) (features ds) 0 init_locals
                ex Ho)
      as (k & f & g & _ & _ & _ & _ & _ & _ & Hposts & _).
    rewrite Hposts in Hh. by destruct Hh.
Qed.

End RunAbort.

(** ** Where the written values come from *)

Lemma inspect_response_forms resp count :
  (inspect_response resp count).1 = msg_not_created
  ∨ (inspect_response resp count).1 = url resp
  ∨ (inspect_response resp count).1 = msg_status (status_code resp).
Proof. unfold inspect_response. repeat case_match; auto. Qed.

Lemma inspect_response_count resp count :
  (inspect_response resp count).2 = count
  ∨ (inspect_response resp count).2 = count + 1.
Proof. unfold inspect_response. repeat case_match; auto. Qed.

Section Written.

Variable service : nat → string → Payload → PostResult.
Variables (srid row_total : Z).

Local Abbreviation body := (loop_body service srid row_total).
Local Abbreviation loop := (for_rows service srid row_total).

(** What one iteration writes is the marker, or comes from the response in
    [r], which is the one just received or the one [r] held before. *)
Lemma body_written i f st :
  let s := body i f st in
  (∀ k row, UpdateRow k row ∈ events s →
     row.1 = Some msg_null_geometry
     ∨ ∃ resp count,
         row.1 = Some (inspect_response resp count).1
         ∧ (r st = Some resp
            ∨ ∃ u d, Post i u d (Returns resp) ∈ events s))
  ∧ (∀ resp, r (locals s) = Some resp →
       r st = Some resp ∨ ∃ u d, Post i u d (Returns resp) ∈ events s).
Proof.
  cbv zeta. rewrite loop_body_locals.
  assert (Hev : ∀ e, record_of e ≠ None →
            e ∈ events (body i f st)
            ↔ e ∈ events (visit_row service srid i f st))
    by (intros e He; by apply loop_body_events).
  split.
  - intros k row Hin. rewrite Hev in Hin by done.
    assert (Hpost : ∀ resp,
              (∃ u d, Post i u d (Returns resp)
                      ∈ events (visit_row service srid i f st)) →
              ∃ u d, Post i u d (Returns resp) ∈ events (body i f st)).
    { intros resp (u & d & H). exists u, d. by rewrite Hev. }
    revert Hin Hpost.
    destruct (visit_row_spec service srid i f st)
      as [Hb | Hb Hg | g resp Hb Hg Hs vc | g resp Hb Hg Hs Hr vc
          | g Hb Hg Hs Hr]; simpl;
      rewrite ?elem_of_cons, elem_of_nil; intros Hin Hpost;
      destruct_or!; simplify_eq; simpl.
    + by left.
    + right. exists resp, (update_count st). split; [done|]. right.
      apply Hpost. eexists _, _. apply elem_of_cons. by left.
    + right. exists resp, (update_count st). split; [done|]. by left.
  - intros resp.
    assert (Hpost : (∃ u d, Post i u d (Returns resp)
                            ∈ events (visit_row service srid i f st)) →
                    ∃ u d, Post i u d (Returns resp) ∈ events (body i f st)).
    { intros (u & d & H). exists u, d. by rewrite Hev. }
    revert Hpost.
    destruct (visit_row_spec service srid i f st)
      as [Hb | Hb Hg | g resp' Hb Hg Hs vc | g resp' Hb Hg Hs Hr vc
          | g Hb Hg Hs Hr]; simpl; intros Hpost Hr'; auto; try done.
    + simplify_eq. right. apply Hpost. eexists _, _.
      apply elem_of_cons. by left.
    + simplify_eq. by left.
Qed.

Lemma for_rows_written fs : ∀ (P : Response → Prop) i st,
  (∀ resp, r st = Some resp → P resp) →
  ∀ k row, UpdateRow k row ∈ events (loop i fs st) →
    row.1 = Some msg_null_geometry
    ∨ ∃ resp count,
        row.1 = Some (inspect_response resp count).1
        ∧ (P resp
           ∨ ∃ j u d, (j ≤ k)%nat
                      ∧ Post j u d (Returns resp) ∈ events (loop i fs st)).
Proof.
  induction fs as [|f fs IH]; intros P i st HP k row; simpl.
  { by rewrite elem_of_nil. }
  destruct (body_written i f st) as [Hw Hr].
  assert (Hhere : UpdateRow k row ∈ events (body i f st) →
            row.1 = Some msg_null_geometry
            ∨ ∃ resp count,
                row.1 = Some (inspect_response resp count).1
                ∧ (P resp
                   ∨ ∃ j u d, (j ≤ k)%nat
                              ∧ Post j u d (Returns resp)
                                ∈ events (body i f st))).
  { intros Hin.
    pose proof (body_record_of service srid row_total i f st _ k Hin eq_refl)
      as ->.
    destruct (Hw _ _ Hin) as [? | (resp & c & Hv & Hfrom)]; [by left|].
    right. exists resp, c. split; [done|].
    destruct Hfrom as [Hst | (u & d & Hp)]; [left; by apply HP|].
    right. by exists i, u, d. }
  destruct (outcome (body i f st)) as [|ex]; simpl; [|exact Hhere].
  rewrite elem_of_app. intros [Hin | Hin].
  - destruct (Hhere Hin) as [? | (resp & c & Hv & Hfrom)]; [by left|].
    right. exists resp, c. split; [done|].
    destruct Hfrom as [? | (j & u & d & Hj & Hp)]; [by left|].
    right. exists j, u, d. split; [done|]. apply elem_of_app. by left.
  - pose proof (for_rows_record_range service srid row_total fs (S i) _ _ k
                  Hin eq_refl) as Hk.
    destruct (IH (λ resp, P resp
                          ∨ ∃ u d, Post i u d (Returns resp)
                                   ∈ events (body i f st))
                (S i) (locals (body i f st))) with (k := k) (row := row)
      as [? | (resp & c & Hv & Hfrom)]; [| done | by left |].
    { intros resp Hresp. destruct (Hr resp Hresp) as [? | ?]; auto. }
    right. exists resp, c. split; [done|].
    destruct Hfrom as [[? | (u & d & Hp)] | (j & u & d & Hj & Hp)].
    + by left.
    + right. exists i, u, d. split; [lia|]. apply elem_of_app. by left.
    + right. exists j, u, d. split; [done|]. apply elem_of_app. by right.
Qed.

(** *** Counters *)

Lemma body_counts i f st :
  let s := body i f st in
  let n := Z.of_nat (length (post_results (events s))) in
  update_count st ≤ update_count (locals s) ≤ update_count st + n ∧ n ≤ 1.
Proof.
  cbv zeta. rewrite loop_body_eq. cbv zeta. simpl.
  rewrite post_results_app, post_results_progress, app_nil_r.
  destruct (visit_row_spec service srid i f st)
    as [Hb | Hb Hg | g resp Hb Hg Hs vc | g resp Hb Hg Hs Hr vc
        | g Hb Hg Hs Hr]; simpl; try lia;
    subst vc; destruct (inspect_response_count resp (update_count st)) as [-> | ->];
    lia.
Qed.

Lemma body_posts_le_one i f st :
  (length (post_results (events (body i f st))) ≤ 1)%nat.
Proof. pose proof (body_counts i f st) as H. cbv zeta in H. lia. Qed.

Lemma for_rows_counts fs : ∀ i st,
  let l := loop i fs st in
  let n := Z.of_nat (length (post_results (events l))) in
  update_count st ≤ update_count (locals l) ≤ update_count st + n
  ∧ n ≤ read_count (locals l) - read_count st.
Proof.
  induction fs as [|f fs IH]; intros i st; simpl; [lia|].
  pose proof (body_counts i f st) as Hb. cbv zeta in Hb.
  pose proof (body_read_count service srid row_total i f st) as Hrc.
  destruct (outcome (body i f st)) as [|ex]; simpl; [|lia].
  specialize (IH (S i) (locals (body i f st))). cbv zeta in IH.
  rewrite post_results_app, length_app. lia.
Qed.

End Written.

Section RunWritten.

Variable service : nat → string → Payload → PostResult.

(** X5.  Every value handed to [updateRow] is the "Null geometry" marker
    or is derived from a response received for that record or an earlier
    one: the not-created marker, that response's URL, or the status message
    for that response's status.  The "request failed" message is assigned
    but never written as such. *)
Theorem written_values_come_from_responses ds i row :
  UpdateRow i row ∈ events (add_geomark_url service ds) →
  ∃ v, row.1 = Some v
       ∧ (v = "Null geometry"
          ∨ ∃ j u d resp,
              (j ≤ i)%nat
              ∧ Post j u d (Returns resp) ∈ events (add_geomark_url service ds)
              ∧ (v = "Could not create Geomark URL for this geometry"
                 ∨ v = url resp
                 ∨ v = "Geomark Web Service returned status code "
                       +:+ pretty (status_code resp)
                       +:+ "; try running the tool again")).
Proof.
  intros Hin. rewrite run_events in Hin by done.
  destruct (for_rows_written service (factoryCode ds)
              (Z.of_nat (length (features ds))) (features ds)
              (λ _, False) 0 init_locals) with (k := i) (row := row)
    as [Hv | (resp & c & Hv & Hfrom)]; [done | done | |].
  - exists msg_null_geometry. split; [done | by left].
  - destruct Hfrom as [[] | (j & u & d & Hj & Hp)].
    eexists. split; [exact Hv|]. right. exists j, u, d, resp.
    split; [done|]. split; [by rewrite run_events|].
    apply inspect_response_forms.
Qed.

(** X6.  The counters at the end of a run, returned or raised: the updates
    counted are at most the requests sent, which are at most the records
    read, which are at most the records of the dataset; a run that returns
    normally has read them all. *)
Theorem counters_bounded ds :
  let run := add_geomark_url service ds in
  let requests := Z.of_nat (length (post_results (events run))) in
  0 ≤ update_count (locals run) ≤ requests
  ∧ requests ≤ read_count (locals run)
  ∧ read_count (locals run) ≤ Z.of_nat (length (features ds))
  ∧ (outcome run = Normal →
     read_count (locals run) = Z.of_nat (length (features ds))).
Proof.
  cbv zeta. rewrite run_post_results, run_locals, run_outcome.
  pose proof (for_rows_counts service (factoryCode ds)
                (Z.of_nat (length (features ds))) (features ds) 0 init_locals)
    as Hc.
  pose proof (for_rows_read_count service (factoryCode ds)
                (Z.of_nat (length (features ds))) (features ds) 0 init_locals)
    as [Hrc HN].
  cbv zeta in Hc. simpl in *. split_and!; try lia.
  intros H. specialize (HN H). lia.
Qed.

End RunWritten.

(** ** Progress messages *)

Section Progress.

Variable service : nat → string → Payload → PostResult.
Variables (srid row_total : Z).

Local Abbreviation body := (loop_body service srid row_total).
Local Abbreviation loop := (for_rows service srid row_total).

Lemma progress_events_elem v e :
  e ∈ progress_events row_total v ↔
    outcome v = Normal
    ∧ (read_count (locals v) mod 10 = 0 ∨ read_count (locals v) = row_total)
    ∧ e = AddMessage (progress_message (read_count (locals v)) row_total
                                       (update_count (locals v))).
Proof.
  unfold progress_events. destruct (outcome v) as [|ex].
  - destruct (Z.eqb_spec (read_count (locals v) mod 10) 0) as [H1 | H1];
      destruct (Z.eqb_spec (read_count (locals v)) row_total) as [H2 | H2];
      simpl; rewrite ?list_elem_of_singleton, ?elem_of_nil;
      intuition congruence.
  - rewrite elem_of_nil. intuition congruence.
Qed.

(** The message of an iteration, when there is one. *)
Lemma body_message i f st m :
  let s := body i f st in
  AddMessage m ∈ events s ↔
    outcome s = Normal
    ∧ ((read_count st + 1) mod 10 = 0 ∨ read_count st + 1 = row_total)
    ∧ m = progress_message (read_count st + 1) row_total
                           (update_count (locals s)).
Proof.
  cbv zeta. rewrite loop_body_outcome, loop_body_locals, loop_body_eq.
  cbv zeta. simpl. rewrite elem_of_app, progress_events_elem.
  rewrite visit_read_count.
  assert (Hno : AddMessage m ∉ events (visit_row service srid i f st)).
  { intros Hin. by apply visit_events_recorded in Hin. }
  split.
  - intros [? | (Ho & Hc & [= ->])]; done.
  - intros (Ho & Hc & ->). by right.
Qed.

Lemma for_rows_messages fs : ∀ i st m,
  AddMessage m ∈ events (loop i fs st) →
  ∃ n k,
    m = progress_message n row_total k
    ∧ read_count st < n ≤ read_count st + Z.of_nat (length fs)
    ∧ (n mod 10 = 0 ∨ n = row_total)
    ∧ update_count st ≤ k ≤ update_count st + (n - read_count st).
Proof.
  induction fs as [|f fs IH]; intros i st m; simpl.
  { by rewrite elem_of_nil. }
  pose proof (body_message i f st m) as Hm. cbv zeta in Hm.
  pose proof (body_counts service srid row_total i f st) as Hc.
  cbv zeta in Hc.
  pose proof (body_read_count service srid row_total i f st) as Hrc.
  assert (Hhere : AddMessage m ∈ events (body i f st) →
            ∃ n k,
              m = progress_message n row_total k
              ∧ read_count st < n ≤ read_count st + Z.of_nat (S (length fs))
              ∧ (n mod 10 = 0 ∨ n = row_total)
              ∧ update_count st ≤ k ≤ update_count st + (n - read_count st)).
  { intros Hin. apply Hm in Hin as (_ & Hcond & ->).
    eexists _, _. split; [done|]. split_and!; try done; lia. }
  destruct (outcome (body i f st)) as [|ex]; simpl; [|exact Hhere].
  rewrite elem_of_app. intros [Hin | Hin]; [by apply Hhere|].
  destruct (IH _ _ _ Hin) as (n & k & -> & Hn & Hcond & Hk).
  exists n, k. split; [done|]. split_and!; try done; lia.
Qed.

(** In a loop that ends normally, each iteration's events are in the log. *)
Lemma for_rows_body_included fs i st k f :
  fs !! k = Some f →
  outcome (loop i fs st) = Normal →
  let pre := loop i (take k fs) st in
  let s := body (i + k) f (locals pre) in
  outcome s = Normal
  ∧ read_count (locals pre) = read_count st + Z.of_nat k
  ∧ ∀ e, e ∈ events s → e ∈ events (loop i fs st).
Proof.
  intros Hk. pose proof (lookup_lt_Some _ _ _ Hk) as Hlt.
  assert (Hlen : length (take k fs) = k) by (rewrite length_take; lia).
  assert (Hsplit : loop i fs st = loop i (take k fs ++ f :: drop (S k) fs) st)
    by (by rewrite take_drop_middle).
  cbv zeta. rewrite Hsplit. clear Hsplit.
  rewrite for_rows_app. cbv zeta. rewrite Hlen.
  pose proof (for_rows_read_count service srid row_total (take k fs) i st)
    as [_ HrcN].
  rewrite Hlen in HrcN.
  destruct (outcome (loop i (take k fs) st)) as [|ex]; simpl; [|done].
  destruct (outcome (body (i + k) f _)) as [|ex]; simpl; [|done].
  intros _. split_and!; [done | by apply HrcN |].
  intros e He. rewrite !elem_of_app. auto.
Qed.

End Progress.

Section RunProgress.

Variable service : nat → string → Payload → PostResult.

(** X7.  Every message of the log is one of the start messages or a
    progress message "Processed n of total ... to k feature(s)" in which n
    is a multiple of ten or the total, between 1 and the total, and k is
    between 0 and n. *)
Theorem messages_are_truthful ds m :
  let total := Z.of_nat (length (features ds)) in
  AddMessage m ∈ events (add_geomark_url service ds) →
  m = "Spatial reference code of input dataset: " +:+ pretty (factoryCode ds)
  ∨ m = "Added GeomarkURL field to input layer"
  ∨ m = "GeomarkURL field already exists in input layer"
  ∨ m = "Processing " +:+ pretty total +:+ " feature(s) of input dataset"
  ∨ ∃ n k,
      m = progress_message n total k
      ∧ 1 ≤ n ≤ total
      ∧ (n mod 10 = 0 ∨ n = total)
      ∧ 0 ≤ k ≤ n.
Proof.
  cbv zeta. rewrite run_events_eq, !elem_of_app, !list_elem_of_singleton.
  intros [[= ->] | [Hin | [[= ->] | Hin]]]; auto.
  - unfold provision in Hin. case_bool_decide; simpl in Hin;
      rewrite ?elem_of_cons, elem_of_nil in Hin; destruct_or!;
      simplify_eq; auto.
  - apply for_rows_messages in Hin as (n & k & -> & Hn & Hcond & Hk).
    simpl in *. do 4 right. exists n, k. split; [done|].
    split_and!; try done; lia.
Qed.

(** X8.  A run that returns normally logs a progress message for every
    tenth record and for the last one. *)
Theorem progress_is_reported ds n :
  let run := add_geomark_url service ds in
  let total := Z.of_nat (length (features ds)) in
  outcome run = Normal →
  1 ≤ n ≤ total →
  n mod 10 = 0 ∨ n = total →
  ∃ k, AddMessage (progress_message n total k) ∈ events run.
Proof.
  intros run total HN Hn Hcond. subst run total.
  rewrite run_outcome in HN.
  destruct (lookup_lt_is_Some_2 (features ds) (Z.to_nat (n - 1)))
    as [f Hf]; [lia|].
  destruct (for_rows_body_included service (factoryCode ds)
              (Z.of_nat (length (features ds))) (features ds) 0 init_locals
              _ f Hf HN) as (Hs & Hrc & Hincl).
  simpl in Hrc, Hincl, Hs.
  eexists. rewrite run_events_eq, !elem_of_app. do 3 right.
  apply Hincl. apply body_message. split; [done|].
  rewrite Hrc. replace (0 + Z.of_nat (Z.to_nat (n - 1)) + 1) with n by lia.
  split; [done|]. reflexivity.
Qed.

End RunProgress.

(** ** A dataset with nothing left to fill *)

Lemma post_results_unrecorded evs :
  (∀ e, e ∈ evs → record_of e = None) → post_results evs = [].
Proof.
  induction evs as [|e evs IH]; intros H; [done|].
  assert (He : record_of e = None) by (apply H, elem_of_cons; by left).
  unfold post_results in *. simpl. destruct e; try done.
  all: apply IH; intros e' He'; apply H, elem_of_cons; by right.
Qed.

(** X9.  When no record has a blank destination, whatever the service
    would do, the run returns normally, leaves every record as it is, sends
    no request, calls [updateRow] not at all and counts no update. *)
Theorem filled_dataset_is_left_alone service ds :
  Forall (λ f, is_blank (dest f) = false) (features ds) →
  let run := add_geomark_url service ds in
  outcome run = Normal
  ∧ features (value run) = features ds
  ∧ record_events (events run) = []
  ∧ update_count (locals run) = 0.
Proof.
  intros Hall run. subst run.
  destruct (for_rows_skip_all service (factoryCode ds)
              (Z.of_nat (length (features ds))) (features ds) Hall 0%nat
              init_locals) as (HN & Hv & _ & Hev).
  pose proof (for_rows_counts service (factoryCode ds)
                (Z.of_nat (length (features ds))) (features ds) 0 init_locals)
    as Hc.
  cbv zeta in Hc. rewrite (post_results_unrecorded _ Hev) in Hc. simpl in Hc.
  rewrite run_outcome, run_features, run_locals. split_and!; try done; [|lia].
  apply filter_nothing. intros e He. apply bool_decide_eq_false.
  destruct (record_of e) as [j|] eqn:Hrec; [|by intros []].
  rewrite run_events in He by congruence. apply Hev in He. congruence.
Qed.

(** ** The further properties at sample inputs *)

Lemma request_carries_record_geometry_witness :
  let run := add_geomark_url (scripted [Returns created_a; Returns rejected])
               (layer [blank_a; blank_b]) in
  Post 1 post_url (payload (WKT lot_b) 3005) (Returns rejected) ∈ events run
  ∧ ∃ f g,
      features (layer [blank_a; blank_b]) !! 1%nat = Some f
      ∧ is_blank (dest f) = true
      ∧ SHAPE f = Some g
      ∧ post_url = "https://apps.gov.bc.ca/pub/geomark/geomarks/new"
      ∧ payload (WKT lot_b) 3005 = payload (WKT g) 3005.
Proof.
  cbv zeta.
  assert (Hin : Post 1 post_url (payload (WKT lot_b) 3005) (Returns rejected)
                ∈ events (add_geomark_url
                            (scripted [Returns created_a; Returns rejected])
                            (layer [blank_a; blank_b]))) by log_entry.
  split; [exact Hin|].
  exact (request_carries_record_geometry
           (scripted [Returns created_a; Returns rejected])
           (layer [blank_a; blank_b]) 1 _ _ _ Hin).
Defined.

Lemma raised_run_stopped_at_failed_request_witness :
  let ds := layer [no_shape; blank_a; blank_b] in
  let run := add_geomark_url (scripted []) ds in
  outcome run = Raised (UnboundLocalError "r")
  ∧ ∃ i f g,
      features ds !! i = Some f ∧ is_blank (dest f) = true
      ∧ SHAPE f = Some g
      ∧ UnboundLocalError "r" = UnboundLocalError "r"
      ∧ read_count (locals run) = Z.of_nat i + 1
      ∧ post_results (events run) = [Raises]
      ∧ events_of i (events run)
        = [Post i post_url (payload (WKT g) (factoryCode ds)) Raises]
      ∧ (∀ k, (i ≤ k)%nat → features (value run) !! k = features ds !! k)
      ∧ (∀ k, (i < k)%nat → events_of k (events run) = []).
Proof.
  cbv zeta. split; [reflexivity|].
  exact (raised_run_stopped_at_failed_request (scripted [])
           (layer [no_shape; blank_a; blank_b]) (UnboundLocalError "r")
           eq_refl).
Defined.

Lemma written_values_come_from_responses_witness :
  let run := add_geomark_url (scripted [Returns created_a; Raises])
               (layer [blank_a; blank_b]) in
  UpdateRow 1 (Some (url created_a), Some lot_b) ∈ events run
  ∧ ∃ v, Some (url created_a) = Some v
         ∧ (v = "Null geometry"
            ∨ ∃ j u d resp,
                (j ≤ 1)%nat
                ∧ Post j u d (Returns resp) ∈ events run
                ∧ (v = "Could not create Geomark URL for this geometry"
                   ∨ v = url resp
                   ∨ v = "Geomark Web Service returned status code "
                         +:+ pretty (status_code resp)
                         +:+ "; try running the tool again")).
Proof.
  cbv zeta.
  assert (Hin : UpdateRow 1 (Some (url created_a), Some lot_b)
                ∈ events (add_geomark_url (scripted [Returns created_a; Raises])
                            (layer [blank_a; blank_b]))) by log_entry.
  split; [exact Hin|].
  exact (written_values_come_from_responses
           (scripted [Returns created_a; Raises])
           (layer [blank_a; blank_b]) 1 _ Hin).
Defined.

Lemma messages_are_truthful_witness :
  let ds := layer [blank_a; filled] in
  let run := add_geomark_url (scripted [Returns created_a]) ds in
  let m := "Processed 2 of 2 feature(s) and added Geomark URL to 1 feature(s)"
  in
  AddMessage m ∈ events run
  ∧ (m = "Spatial reference code of input dataset: " +:+ pretty 3005
     ∨ m = "Added GeomarkURL field to input layer"
     ∨ m = "GeomarkURL field already exists in input layer"
     ∨ m = "Processing " +:+ pretty 2 +:+ " feature(s) of input dataset"
     ∨ ∃ n k,
         m = progress_message n 2 k
         ∧ 1 ≤ n ≤ 2 ∧ (n mod 10 = 0 ∨ n = 2) ∧ 0 ≤ k ≤ n).
Proof.
  cbv zeta.
  assert (Hin : AddMessage
                  "Processed 2 of 2 feature(s) and added Geomark URL to 1 feature(s)"
                ∈ events (add_geomark_url (scripted [Returns created_a])
                            (layer [blank_a; filled]))) by log_entry.
  split; [exact Hin|].
  exact (messages_are_truthful (scripted [Returns created_a])
           (layer [blank_a; filled]) _ Hin).
Defined.

Lemma progress_is_reported_witness :
  let run := add_geomark_url (scripted [Returns created_a])
               (layer [blank_a; filled]) in
  (outcome run = Normal ∧ 1 ≤ 2 ≤ 2 ∧ (2 mod 10 = 0 ∨ 2 = 2))
  ∧ ∃ k, AddMessage (progress_message 2 2 k) ∈ events run.
Proof.
  cbv zeta.
  assert (Hn : 1 ≤ 2 ≤ 2) by lia.
  assert (Hc : 2 mod 10 = 0 ∨ 2 = 2) by (right; reflexivity).
  split; [split; [reflexivity | split; [exact Hn | exact Hc]]|].
  exact (progress_is_reported (scripted [Returns created_a])
           (layer [blank_a; filled]) 2 eq_refl Hn Hc).
Defined.

Lemma filled_dataset_is_left_alone_witness :
  let run := add_geomark_url (scripted []) (layer [filled; two_spaces]) in
  Forall (λ f, is_blank (dest f) = false) [filled; two_spaces]
  ∧ outcome run = Normal
  ∧ features (value run) = [filled; two_spaces]
  ∧ record_events (events run) = []
  ∧ update_count (locals run) = 0.
Proof.
  cbv zeta.
  assert (Hall : Forall (λ f, is_blank (dest f) = false)
                        (features (layer [filled; two_spaces]))).
  { repeat constructor. }
  split; [exact Hall|].
  exact (filled_dataset_is_left_alone (scripted [])
           (layer [filled; two_spaces]) Hall).
Defined.

(** ** The record without geometry *)

(** X10.  A record with a blank destination and no geometry that the
    cursor arrives at, as every record is in a run that returns normally,
    ends the run with the destination "Null geometry" and everything else
    as it was; the one event of the record is that [updateRow], so no
    request is sent for it. *)
Theorem reached_null_geometry_is_marked service ds i f :
  features ds !! i = Some f →
  is_blank (dest f) = true →
  SHAPE f = None →
  let run := add_geomark_url service ds in
  outcome run = Normal ∨ reached run i →
  features (value run) !! i
  = Some (updateRow f (Some "Null geometry", None))
  ∧ dest (updateRow f (Some "Null geometry", None)) = Some "Null geometry"
  ∧ events_of i (events run) = [UpdateRow i (Some "Null geometry", None)].
Proof.
  intros Hi Hb Hg run Hrun. subst run.
  assert (Hr : reached (add_geomark_url service ds) i).
  { destruct Hrun as [HN | Hr]; [|done].
    apply completed_reaches_all; [done|]. by eapply lookup_lt_Some. }
  pose proof (run_lookup service ds i f Hi) as H. cbv zeta in H.
  pose proof (for_rows_events_of service (factoryCode ds)
                (Z.of_nat (length (features ds))) (features ds) 0
                init_locals i f Hi) as Hevs.
  cbv zeta in Hevs. simpl in Hevs. rewrite run_events_of, Hevs.
  unfold cursor_after in H.
  destruct (outcome (for_rows _ _ _ _ (take i (features ds)) _)) as [|ex].
  - destruct H as (Hv & _). rewrite Hv, loop_body_value.
    rewrite !visit_null_geometry by done. simpl.
    split_and!; [done | apply dest_updateRow | done].
  - by destruct H as (_ & _ & Hn).
Qed.

Lemma reached_null_geometry_is_marked_witness :
  let ds := layer [blank_a; no_shape; filled] in
  let run := add_geomark_url (scripted [Returns created_a]) ds in
  (features ds !! 1%nat = Some no_shape
   ∧ is_blank (dest no_shape) = true
   ∧ SHAPE no_shape = None
   ∧ outcome run = Normal
   ∧ reached run 1)
  ∧ dest <$> features (value run) !! 1%nat = Some (Some "Null geometry")
  ∧ events_of 1 (events run) = [UpdateRow 1 (Some "Null geometry", None)].
Proof.
  cbv zeta.
  split; [repeat split; reflexivity|].
  destruct (reached_null_geometry_is_marked (scripted [Returns created_a])
              (layer [blank_a; no_shape; filled]) 1 no_shape
              eq_refl eq_refl eq_refl (or_introl eq_refl))
    as (Hv & Hd & Hev).
  split; [|exact Hev]. rewrite Hv. simpl. by rewrite Hd.
Defined.
